(** * Tegra graphics host syncpoints (drivers/video/tegra/host/nvhost_syncpt.c)

    A shallow embedding of the syncpoint registry: the wrap-around
    comparisons, the refresh of the cached minimum, the CPU increment, the
    blocking wait and the stale-wait check, with the properties the
    specification states about them.

    Conventions.  A [u32] is a [Z] reduced modulo [2^32]; a cast to [s32]
    re-reads the same 32 bits as a two's complement number.  The arrays of
    [struct nvhost_syncpt] are lists indexed by the counter id.  The calls
    into the rest of the driver (register transport, power gate, interrupt
    dispatcher, buffer patcher, scheduler) are recorded as a trace of events
    and answered by a record of collaborators.  A run is that of a single
    thread: memory barriers have no effect and are left out, and so are the
    log lines [dev_err], [printk] and [dev_dbg]; the [dev_warn] of the
    blocking loop is kept, because it calls [nvhost_syncpt_name], and so is
    the register dump [nvhost_sync_reg_dump] that the refresh asks for before
    it halts, a call into another file of the driver.  What
    other threads and the interrupt handler do during a sleep shows only in
    the answer of that sleep. *)

From Stdlib Require Import ZArith Lia Bool.
From stdpp Require Import base list strings.

Local Open Scope Z_scope.

(** ** Machine integers *)

Definition u32 (z : Z) : Z := z mod 2 ^ 32.

Definition s32 (z : Z) : Z :=
  let w := u32 z in if w <? 2 ^ 31 then w else w - 2 ^ 32.

(** [BIT(nr)] is [1UL << nr]. *)
Definition BIT (nr : Z) : Z := Z.shiftl 1 nr.

(** ** Wrapping comparisons (source lines 283-293) *)

(** returns true, if a <= b < c using wrapping comparison *)
Definition nvhost_syncpt_is_between (a b c : Z) : bool :=
  u32 (b - a) <? u32 (c - a).

(** returns true, if x >= y (mod 1 << 32); the third argument is converted
    to [u32] when it is passed. *)
Definition nvhost_syncpt_wrapping_comparison (x y : Z) : bool :=
  nvhost_syncpt_is_between y x (u32 (Z.shiftl 1 31 + y)).

(** [v] lies in the half-open window [[lo, lo + 2^31)] of the 32-bit circle:
    some offset below [2^31] leads from [lo] to [v]. *)
Definition in_window (lo v : Z) : Prop :=
  exists k, 0 <= k < 2 ^ 31 /\ u32 v = u32 (lo + k).

(** ** The registry and what surrounds it *)

(** [struct nvhost_syncpt]: the software shadows, one cell per counter. *)
Record nvhost_syncpt := {
  min_val : list Z;
  max_val : list Z;
}.

(** [struct nvhost_waitchk]: a queued wait instruction. *)
Record nvhost_waitchk := {
  mem : Z;
  offset : Z;
  syncpt_id : Z;
  thresh : Z;
}.

(** Constants that the source takes from headers outside this file. *)
Record nvhost_config := {
  HZ : Z;
  NVHOST_NO_TIMEOUT : Z;
  EAGAIN : Z;
  NVSYNCPTS_CLIENT_MANAGED : Z;
  NV_HOST1X_SYNCPT_NB_PTS : Z;
  NVSYNCPT_GRAPHICS_HOST : Z;
  nvhost_class_host_wait_syncpt : Z -> Z -> Z;
}.

(** Answers of the external collaborators during one call: the live value
    of a counter register, the status of registering a wake action for
    (id, thresh), the value returned by the n-th bounded sleep given its
    slice, and the status of patching (mem, offset, override). *)
Record collaborators := {
  readl_syncpt : Z -> Z;
  nvhost_intr_add_action : Z -> Z -> Z;
  wait_event_interruptible_timeout : nat -> Z -> Z;
  nvmap_patch_wait : Z -> Z -> Z -> Z;
}.

(** Calls that leave the registry, in program order. *)
Inductive event :=
| module_busy
| module_idle
| syncpt_readl (id : Z)
| sync_reg_dump
| cpu_incr_writel (v : Z)
| intr_add_action (id thresh : Z)
| intr_put_ref
| wait_event (check : Z)
| warn_stuck (id : Z) (name : string) (thresh timeout : Z)
| patch_wait (mem offset override : Z).

(** How a call ends: it returns, it halts in [BUG()], it reads or writes
    past the end of an array, or the fuel given to its loop runs out. *)
Inductive result (A : Type) :=
| Ok (a : A)
| Bug
| Fault
| Spin.
Arguments Ok {A} a.
Arguments Bug {A}.
Arguments Fault {A}.
Arguments Spin {A}.

Definition M (A : Type) : Type :=
  nvhost_syncpt -> result A * nvhost_syncpt * list event.

Definition ret {A} (a : A) : M A := fun sp => (Ok a, sp, []).
Definition bug {A} : M A := fun sp => (Bug, sp, []).
Definition fault {A} : M A := fun sp => (Fault, sp, []).
Definition spin {A} : M A := fun sp => (Spin, sp, []).
Definition emit (e : event) : M unit := fun sp => (Ok tt, sp, [e]).

Definition bind {A B} (m : M A) (k : A -> M B) : M B :=
  fun sp =>
    match m sp with
    | (Ok a, sp1, t1) =>
        match k a sp1 with (r, sp2, t2) => (r, sp2, t1 ++ t2) end
    | (Bug, sp1, t1) => (Bug, sp1, t1)
    | (Fault, sp1, t1) => (Fault, sp1, t1)
    | (Spin, sp1, t1) => (Spin, sp1, t1)
    end.

Notation "x <- m ;; k" := (bind m (fun x => k))
  (at level 100, m at next level, right associativity).
Notation "m ;;; k" := (bind m (fun _ => k))
  (at level 100, right associativity).

Definition outcome {A} (r : result A * nvhost_syncpt * list event) : result A :=
  fst (fst r).
Definition final {A} (r : result A * nvhost_syncpt * list event) : nvhost_syncpt :=
  snd (fst r).
Definition events {A} (r : result A * nvhost_syncpt * list event) : list event :=
  snd r.

(** Jiffies slept according to a trace. *)
Fixpoint slept (t : list event) : Z :=
  match t with
  | [] => 0
  | wait_event check :: t' => check + slept t'
  | _ :: t' => slept t'
  end.

(** [for (...) body] over the indices of [l], in order. *)
Fixpoint for_each {A} (l : list A) (body : A -> M unit) : M unit :=
  match l with
  | [] => ret tt
  | a :: l' => body a ;;; for_each l' body
  end.

(** The registry after a store to [min_val[id]], and to [max_val[id]]. *)
Definition set_min (sp : nvhost_syncpt) (id v : Z) : nvhost_syncpt :=
  {| min_val := <[Z.to_nat id := v]> (min_val sp); max_val := max_val sp |}.

Definition set_max (sp : nvhost_syncpt) (id v : Z) : nvhost_syncpt :=
  {| min_val := min_val sp; max_val := <[Z.to_nat id := v]> (max_val sp) |}.

(** [(u32)atomic_read(&sp->min_val[id])] and its twin for [max_val]. *)
Definition atomic_read_min (id : Z) : M Z :=
  fun sp =>
    match min_val sp !! Z.to_nat id with
    | Some v => ret (u32 v) sp
    | None => fault sp
    end.

Definition atomic_read_max (id : Z) : M Z :=
  fun sp =>
    match max_val sp !! Z.to_nat id with
    | Some v => ret (u32 v) sp
    | None => fault sp
    end.

Definition atomic_set_min (id v : Z) : M unit :=
  fun sp =>
    match min_val sp !! Z.to_nat id with
    | Some _ => (Ok tt, set_min sp id v, [])
    | None => fault sp
    end.

(** Modelled from the spec: [nvhost_syncpt_incr_max] of nvhost_syncpt.h,
    which is not part of the source at hand; increment adds to [max_val[id]]
    and yields the new value, in 32-bit arithmetic. *)
Definition nvhost_syncpt_incr_max (id incrs : Z) : M Z :=
  fun sp =>
    match max_val sp !! Z.to_nat id with
    | Some v => (Ok (u32 (v + incrs)), set_max sp id (u32 (v + incrs)), [])
    | None => fault sp
    end.

(** Modelled from the spec: [nvhost_syncpt_min_eq_max] of nvhost_syncpt.h,
    which is not part of the source at hand; it tells whether [min_val[id]]
    equals [max_val[id]]. *)
Definition nvhost_syncpt_min_eq_max (id : Z) : M bool :=
  min <- atomic_read_min id ;;
  max <- atomic_read_max id ;;
  ret (min =? max).

(** Modelled from the spec: [nvhost_syncpt_min_cmp] of nvhost_syncpt.h,
    which is not part of the source at hand; the cached minimum has reached
    or passed the threshold when the signed difference is non-negative. *)
Definition nvhost_syncpt_min_cmp (id thresh : Z) : M bool :=
  cur <- atomic_read_min id ;;
  ret (0 <=? s32 (cur - thresh)).

(** The fixed table of names (source lines 253-260). *)
Definition s_syncpt_names : list string :=
  let none := EmptyString in
  [ "gfx_host"; none; none; none; none; none; none; none; none; none; none;
    none;
    "vi_isp_0"; "vi_isp_1"; "vi_isp_2"; "vi_isp_3"; "vi_isp_4"; "vi_isp_5";
    "2d_0"; "2d_1";
    none; none;
    "3d"; "mpe"; "disp0"; "disp1"; "vblank0"; "vblank1"; "mpe_ebm_eof";
    "mpe_wr_safe";
    "2d_tinyblt"; "dsi" ]%string.

Definition ARRAY_SIZE {A} (l : list A) : Z := Z.of_nat (length l).

(** [nvhost_syncpt_name] (source lines 262-266). *)
Definition nvhost_syncpt_name (id : Z) : M string :=
  if id >? ARRAY_SIZE s_syncpt_names then bug
  else match s_syncpt_names !! Z.to_nat id with
       | Some s => ret s
       | None => fault
       end.

Section Registry.
Context (cfg : nvhost_config) (env : collaborators).

(** [#define client_managed(id) (BIT(id) & NVSYNCPTS_CLIENT_MANAGED)] *)
Definition client_managed (id : Z) : bool :=
  negb (Z.land (BIT id) (NVSYNCPTS_CLIENT_MANAGED cfg) =? 0).

(** [#define SYNCPT_CHECK_PERIOD 2*HZ] *)
Definition SYNCPT_CHECK_PERIOD : Z := 2 * HZ cfg.

(** [check_max] (source lines 33-41). *)
Definition check_max (id real : Z) : M bool :=
  if client_managed id then ret true
  else
    max <- atomic_read_max id ;;
    ret (0 <=? s32 (max - real)).

(** [nvhost_syncpt_update_min] (source lines 109-134).  On one thread the
    compare-and-swap meets the value just read and succeeds at once. *)
Definition nvhost_syncpt_update_min (id : Z) : M Z :=
  old <- atomic_read_min id ;;
  emit (syncpt_readl id) ;;;
  let live := u32 (readl_syncpt env id) in
  atomic_set_min id live ;;;
  ok <- check_max id live ;;
  if negb ok then
    maxsp <- atomic_read_max id ;;
    emit sync_reg_dump ;;;
    bug
  else ret live.

(** [nvhost_syncpt_read] (source lines 139-147). *)
Definition nvhost_syncpt_read (id : Z) : M Z :=
  emit module_busy ;;;
  val <- nvhost_syncpt_update_min id ;;
  emit module_idle ;;;
  ret val.

(** [nvhost_syncpt_cpu_incr] (source lines 153-165). *)
Definition nvhost_syncpt_cpu_incr (id : Z) : M unit :=
  drained <- (if negb (client_managed id) then nvhost_syncpt_min_eq_max id
              else ret false) ;;
  if drained then bug
  else emit (cpu_incr_writel (BIT id)).

(** [nvhost_syncpt_incr] (source lines 170-176). *)
Definition nvhost_syncpt_incr (id : Z) : M unit :=
  nvhost_syncpt_incr_max id 1 ;;;
  emit module_busy ;;;
  nvhost_syncpt_cpu_incr id ;;;
  emit module_idle.

(** The blocking loop of [nvhost_syncpt_wait_timeout] (source lines
    217-241), entered at its [n]-th sleep with [timeout] left.  It yields the
    value of [err] on leaving the loop: the non-zero answer of a sleep after
    [break], or 0 once [timeout] is 0 ([err] is 0 whenever the condition of
    the loop is tested: it then holds the status of the registration that
    succeeded or the answer of a sleep that did not break). *)
Fixpoint wait_loop (fuel : nat) (id thresh : Z) (n : nat) (timeout : Z) : M Z :=
  if timeout =? 0 then ret 0
  else
    match fuel with
    | O => spin
    | S fuel' =>
        let check := Z.min (u32 SYNCPT_CHECK_PERIOD) timeout in
        emit (wait_event check) ;;;
        let err := wait_event_interruptible_timeout env n check in
        if negb (err =? 0) then ret err
        else
          let timeout' :=
            if negb (timeout =? u32 (NVHOST_NO_TIMEOUT cfg))
            then u32 (timeout - SYNCPT_CHECK_PERIOD)
            else timeout in
          (if negb (timeout' =? 0) then
             name <- nvhost_syncpt_name id ;;
             emit (warn_stuck id name thresh timeout')
           else ret tt) ;;;
          wait_loop fuel' id thresh (S n) timeout'
    end.

(** The label [done:] of [nvhost_syncpt_wait_timeout] (source lines
    248-250). *)
Definition wait_timeout_done (err : Z) : M Z :=
  emit module_idle ;;;
  ret err.

(** [nvhost_syncpt_wait_timeout] from the test of [timeout] to its end
    (source lines 205-250): what runs when neither the cache nor the forced
    read satisfied the threshold. *)
Definition wait_timeout_block (fuel : nat) (id thresh timeout : Z) : M Z :=
  if timeout =? 0 then wait_timeout_done (- EAGAIN cfg)
  else
    emit (intr_add_action id thresh) ;;;
    let err := nvhost_intr_add_action env id thresh in
    if negb (err =? 0) then wait_timeout_done err
    else
      err <- wait_loop fuel id thresh O timeout ;;
      let err := if err >? 0 then 0
                 else if err =? 0 then - EAGAIN cfg
                 else err in
      emit intr_put_ref ;;;
      wait_timeout_done err.

(** [nvhost_syncpt_wait_timeout] (source lines 181-251); each [goto done]
    is a call of [wait_timeout_done].  [fuel] bounds the number of sleeps
    that are followed. *)
Definition nvhost_syncpt_wait_timeout (fuel : nat) (id thresh timeout : Z) : M Z :=
  ok <- check_max id thresh ;;
  if negb ok then bug
  else
    cached <- nvhost_syncpt_min_cmp id thresh ;;
    if cached then ret 0
    else
      emit module_busy ;;;
      pending <- (if client_managed id then ret true
                  else drained <- nvhost_syncpt_min_eq_max id ;;
                       ret (negb drained)) ;;
      if pending then
        val <- nvhost_syncpt_update_min id ;;
        if 0 <=? s32 (val - thresh) then wait_timeout_done 0
        else wait_timeout_block fuel id thresh timeout
      else wait_timeout_block fuel id thresh timeout.

(** The descriptor loop of [nvhost_syncpt_wait_check] (source lines
    312-337) over the array [waitp] of [waitchks] descriptors. *)
Fixpoint wait_check_loop (waitp : list nvhost_waitchk) : M Z :=
  match waitp with
  | [] => ret 0
  | w :: waitp' =>
      if syncpt_id w >? NV_HOST1X_SYNCPT_NB_PTS cfg then bug
      else
        syncpt <- atomic_read_min (syncpt_id w) ;;
        if nvhost_syncpt_wrapping_comparison syncpt (thresh w) then
          let override :=
            nvhost_class_host_wait_syncpt cfg (NVSYNCPT_GRAPHICS_HOST cfg) 0 in
          emit (patch_wait (mem w) (offset w) override) ;;;
          let err := nvmap_patch_wait env (mem w) (offset w) override in
          if negb (err =? 0) then ret err
          else wait_check_loop waitp'
        else wait_check_loop waitp'
  end.

(** [nvhost_syncpt_wait_check] (source lines 296-339); a null [waitp] is
    [None]. *)
Definition nvhost_syncpt_wait_check (waitchk_mask : Z)
    (waitp : option (list nvhost_waitchk)) : M Z :=
  for_each (seqZ 0 (NV_HOST1X_SYNCPT_NB_PTS cfg))
    (fun idx =>
       if negb (Z.land (BIT idx) waitchk_mask =? 0) then
         nvhost_syncpt_update_min idx ;;; ret tt
       else ret tt) ;;;
  match waitp with
  | None => bug
  | Some descs => wait_check_loop descs
  end.

End Registry.

(** ** Notions for the statements about the blocking loop *)

(** The slice slept with [timeout] left (source line 218), what is left
    after a sleep that ran its whole slice (source lines 224-225), and what
    is left after [j] such sleeps. *)
Definition slice (cfg : nvhost_config) (timeout : Z) : Z :=
  Z.min (u32 (SYNCPT_CHECK_PERIOD cfg)) timeout.

Definition timeout_after_sleep (cfg : nvhost_config) (timeout : Z) : Z :=
  if negb (timeout =? u32 (NVHOST_NO_TIMEOUT cfg))
  then u32 (timeout - SYNCPT_CHECK_PERIOD cfg)
  else timeout.

Fixpoint remaining (cfg : nvhost_config) (j : nat) (timeout : Z) : Z :=
  match j with
  | O => timeout
  | S j' => remaining cfg j' (timeout_after_sleep cfg timeout)
  end.

(** The [j] sleeps from the [n]-th on are all entered and all run their
    whole slice: the predicate stays unsatisfied and no signal arrives. *)
Definition quiet (cfg : nvhost_config) (env : collaborators) (n j : nat)
    (timeout : Z) : Prop :=
  forall i : nat, (i < j)%nat ->
    remaining cfg i timeout <> 0 /\
    wait_event_interruptible_timeout env (n + i)
      (slice cfg (remaining cfg i timeout)) = 0.

(** Modelled from the spec: [wait_event_interruptible_timeout] of
    linux/wait.h, which is not part of the source at hand; a bounded sleep
    ends in one of three ways and answers 0 when its slice ran out with the
    predicate unsatisfied, the jiffies left, at least 1, when the predicate
    became true, and [-ERESTARTSYS] when a signal interrupted it.  So its
    only negative answer is [-ERESTARTSYS], a constant of linux/errno.h. *)
Definition interruptible (ERESTARTSYS : Z) (env : collaborators) : Prop :=
  forall (n : nat) (check : Z),
    0 <= wait_event_interruptible_timeout env n check \/
    wait_event_interruptible_timeout env n check = - ERESTARTSYS.

(** The calls made by the blocking loop: sleeps and warnings. *)
Definition sleepy (e : event) : bool :=
  match e with
  | wait_event _ | warn_stuck _ _ _ _ => true
  | _ => false
  end.

(** ** Notions for the statements about the stale-wait check *)

(** The two kinds of call the stale-wait check makes. *)
Definition is_readl (e : event) : bool :=
  match e with syncpt_readl _ => true | _ => false end.

Definition is_patch (e : event) : bool :=
  match e with patch_wait _ _ _ => true | _ => false end.

(** Counter [idx] is flagged in the mask. *)
Definition flagged (mask idx : Z) : bool :=
  negb (Z.land (BIT idx) mask =? 0).

(** The registry once the flagged counters below [k] took the live value of
    their register. *)
Definition refresh_upto (env : collaborators) (mask : Z) (k : nat)
    (sp : nvhost_syncpt) : nvhost_syncpt :=
  {| min_val :=
       imap (fun i v =>
               if (i <? k)%nat && flagged mask (Z.of_nat i)
               then u32 (readl_syncpt env (Z.of_nat i)) else v)
            (min_val sp);
     max_val := max_val sp |}.

Definition refresh_flagged (env : collaborators) (mask : Z)
    (sp : nvhost_syncpt) : nvhost_syncpt :=
  refresh_upto env mask (length (min_val sp)) sp.

(** The cached minimum of a counter, and what it is after the refresh. *)
Definition cached (sp : nvhost_syncpt) (id : Z) : Z :=
  u32 (default 0 (min_val sp !! Z.to_nat id)).

Definition cached_after (env : collaborators) (mask : Z) (sp : nvhost_syncpt)
    (id : Z) : Z :=
  if flagged mask id then u32 (readl_syncpt env id) else cached sp id.

(** A descriptor is stale when its counter, as cached after the refresh,
    has reached its threshold. *)
Definition stale (env : collaborators) (mask : Z) (sp : nvhost_syncpt)
    (w : nvhost_waitchk) : bool :=
  nvhost_syncpt_wrapping_comparison (cached_after env mask sp (syncpt_id w))
    (thresh w).

(** The wait on the reserved counter compared with 0, the call that patches
    a descriptor to it, and the status the patcher answers. *)
Definition always_true (cfg : nvhost_config) : Z :=
  nvhost_class_host_wait_syncpt cfg (NVSYNCPT_GRAPHICS_HOST cfg) 0.

Definition patch_event (cfg : nvhost_config) (w : nvhost_waitchk) : event :=
  patch_wait (mem w) (offset w) (always_true cfg).

Definition patch_status (cfg : nvhost_config) (env : collaborators)
    (w : nvhost_waitchk) : Z :=
  nvmap_patch_wait env (mem w) (offset w) (always_true cfg).

(** ** Reset and save (source lines 43-104)

    [struct nvhost_syncpt] also holds [base_val], the shadows of the
    wait-base registers, which only the reset and the save use.  Their
    calls are the calls above, the writes to the counter registers and the
    reads and writes of the wait-base registers. *)
Record nvhost_syncpt_bases := {
  counters : nvhost_syncpt;
  base_val : list Z;
}.

Inductive reg_event :=
| counter_call (e : event)
| syncpt_writel (id v : Z)
| base_writel (id v : Z)
| base_readl (id : Z).

Definition D (A : Type) : Type :=
  nvhost_syncpt_bases -> result A * nvhost_syncpt_bases * list reg_event.

Definition retD {A} (a : A) : D A := fun d => (Ok a, d, []).
Definition faultD {A} : D A := fun d => (Fault, d, []).
Definition emitD (e : reg_event) : D unit := fun d => (Ok tt, d, [e]).

Definition bindD {A B} (m : D A) (k : A -> D B) : D B :=
  fun d =>
    match m d with
    | (Ok a, d1, t1) =>
        match k a d1 with (r, d2, t2) => (r, d2, t1 ++ t2) end
    | (Bug, d1, t1) => (Bug, d1, t1)
    | (Fault, d1, t1) => (Fault, d1, t1)
    | (Spin, d1, t1) => (Spin, d1, t1)
    end.

(** An operation on the counters, run on the whole structure. *)
Definition lift {A} (m : M A) : D A :=
  fun d =>
    match m (counters d) with
    | (r, sp, t) =>
        (r, {| counters := sp; base_val := base_val d |}, counter_call <$> t)
    end.

Fixpoint for_eachD {A} (l : list A) (body : A -> D unit) : D unit :=
  match l with
  | [] => retD tt
  | a :: l' => bindD (body a) (fun _ => for_eachD l' body)
  end.

(** [reset_syncpt] (source lines 46-53): write the current syncpoint value
    back to hw. *)
Definition reset_syncpt (id : Z) : D unit :=
  bindD (lift (atomic_read_min id)) (fun min => emitD (syncpt_writel id min)).

(** [reset_syncpt_wait_base] (source lines 58-63): write the current
    waitbase value back to hw. *)
Definition reset_syncpt_wait_base (id : Z) : D unit :=
  fun d =>
    match base_val d !! Z.to_nat id with
    | Some v => emitD (base_writel id (u32 v)) d
    | None => faultD d
    end.

Section Power.
Context (cfg : nvhost_config) (env : collaborators).

(** The number of wait-base registers, a constant of the headers, and the
    value that the register transport shows in each of them. *)
Variables (NV_HOST1X_SYNCPT_NB_BASES : Z) (readl_base : Z -> Z).


(** [nvhost_syncpt_reset] (source lines 78-86): resets syncpoint and
    waitbase values to sw shadows. *)
Definition nvhost_syncpt_reset : D unit :=
  bindD (for_eachD (seqZ 0 (NV_HOST1X_SYNCPT_NB_PTS cfg)) reset_syncpt)
    (fun _ => for_eachD (seqZ 0 NV_HOST1X_SYNCPT_NB_BASES) reset_syncpt_wait_base).



End Power.

(** The registers as the reset leaves them: what hardware that keeps what
    is written shows afterwards. *)
Definition written_counter (d : nvhost_syncpt_bases) (id : Z) : Z :=
  u32 (default 0 (min_val (counters d) !! Z.to_nat id)).

Definition written_base (d : nvhost_syncpt_bases) (id : Z) : Z :=
  u32 (default 0 (base_val d !! Z.to_nat id)).


(** ** A sample configuration

    Values in the style of the Tegra 2 headers, used to run the model on
    concrete inputs: a 100 Hz tick, [-1] for "no timeout", the two display
    counters and the dsi counter managed by their clients. *)
Definition sample_cfg : nvhost_config := {|
  HZ := 100;
  NVHOST_NO_TIMEOUT := -1;
  EAGAIN := 11;
  NVSYNCPTS_CLIENT_MANAGED := Z.lor (BIT 24) (Z.lor (BIT 25) (BIT 31));
  NV_HOST1X_SYNCPT_NB_PTS := 32;
  NVSYNCPT_GRAPHICS_HOST := 0;
  nvhost_class_host_wait_syncpt :=
    fun indx threshold => Z.lor (Z.shiftl indx 24) (Z.land threshold 0xffffff);
|}.

(** Hardware that shows [live] in every counter, a dispatcher that answers
    [add] to a registration, sleeps that all return [woke], and a patcher
    that fails with [-14] on the buffer [bad] only. *)
Definition sample_env (live add woke bad : Z) : collaborators := {|
  readl_syncpt := fun _ => live;
  nvhost_intr_add_action := fun _ _ => add;
  wait_event_interruptible_timeout := fun _ _ => woke;
  nvmap_patch_wait := fun mem _ _ => if mem =? bad then -14 else 0;
|}.

(** A registry of 32 counters, all at [mn] and reserved up to [mx]. *)
Definition sample_sp (mn mx : Z) : nvhost_syncpt :=
  {| min_val := replicate 32 mn; max_val := replicate 32 mx |}.

(** A structure of three counters, all at [mn] and reserved up to [mx], and
    two wait bases at [b]; a configuration for it in which counter 1 is
    client-managed. *)
Definition sample_bases (mn mx b : Z) : nvhost_syncpt_bases :=
  {| counters := {| min_val := [mn; mn; mn]; max_val := [mx; mx; mx] |};
     base_val := [b; b] |}.

Definition small_cfg : nvhost_config := {|
  HZ := 100;
  NVHOST_NO_TIMEOUT := -1;
  EAGAIN := 11;
  NVSYNCPTS_CLIENT_MANAGED := BIT 1;
  NV_HOST1X_SYNCPT_NB_PTS := 3;
  NVSYNCPT_GRAPHICS_HOST := 0;
  nvhost_class_host_wait_syncpt :=
    fun indx threshold => Z.lor (Z.shiftl indx 24) (Z.land threshold 0xffffff);
|}.


(** * Properties *)

(** ** Machine integers and the wrapping comparison *)

Lemma u32_range z : 0 <= u32 z < 2 ^ 32.
Proof. unfold u32. apply Z.mod_pos_bound. lia. Qed.

Lemma u32_small z : 0 <= z < 2 ^ 32 -> u32 z = z.
Proof. intros. unfold u32. apply Z.mod_small. lia. Qed.

Lemma u32_small_eq z w : w = z -> 0 <= z < 2 ^ 32 -> u32 w = z.
Proof. intros -> H. apply u32_small, H. Qed.

Lemma u32_odd z : Z.odd (u32 z) = Z.odd z.
Proof.
  unfold u32. rewrite Z.mod_eq by lia.
  replace (z - 2 ^ 32 * (z / 2 ^ 32)) with (z + 2 * (- 2 ^ 31 * (z / 2 ^ 32))) by lia.
  apply Z.odd_add_mul_2.
Qed.

Lemma u32_idem z : u32 (u32 z) = u32 z.
Proof. apply u32_small, u32_range. Qed.

Lemma s32_nonneg z : 0 <= s32 z <-> u32 z < 2 ^ 31.
Proof.
  unfold s32. pose proof (u32_range z) as Hr.
  destruct (Z.ltb_spec (u32 z) (2 ^ 31)); lia.
Qed.

Lemma u32_sub_u32_l a b : u32 (u32 a - b) = u32 (a - b).
Proof. unfold u32. rewrite Zminus_mod_idemp_l. reflexivity. Qed.

Lemma u32_add_sub_cancel k y : u32 (u32 (k + y) - y) = u32 k.
Proof. rewrite u32_sub_u32_l. f_equal. lia. Qed.

Lemma in_window_iff lo v : in_window lo v <-> u32 (v - lo) < 2 ^ 31.
Proof.
  split.
  - intros (k & Hk & E).
    assert (u32 (v - lo) = k) as ->; [|lia].
    unfold u32 in *.
    rewrite <- (Z.mod_small k (2 ^ 32)) by lia.
    rewrite <- Zminus_mod_idemp_l, E, Zminus_mod_idemp_l.
    f_equal. lia.
  - intros H. exists (u32 (v - lo)). split.
    + pose proof (u32_range (v - lo)). lia.
    + unfold u32. rewrite Zplus_mod_idemp_r. f_equal. lia.
Qed.

Lemma wrapping_comparison_unfold x y :
  nvhost_syncpt_wrapping_comparison x y = (u32 (x - y) <? 2 ^ 31).
Proof.
  unfold nvhost_syncpt_wrapping_comparison, nvhost_syncpt_is_between.
  rewrite u32_add_sub_cancel. reflexivity.
Qed.

(** C1: for all 32-bit values [x] and [y] (indeed for all integers, read
    modulo [2^32]) the wrapping comparison of [x] with [y] is true exactly
    when the signed 32-bit reading of [x - y] is non-negative. *)
Theorem wrapping_comparison_signed x y :
  nvhost_syncpt_wrapping_comparison x y = true <-> 0 <= s32 (x - y).
Proof.
  rewrite wrapping_comparison_unfold, s32_nonneg.
  apply Z.ltb_lt.
Qed.

(** C2 as stated fails: with [x = 0xFFFFFFF0] and [y = 5] the function
    answers false, and at [x = 3], [y = 5] the value [y] lies in the window
    that starts at [x] while the function answers false. *)
Lemma wrapping_comparison_window_from_x_fails :
  nvhost_syncpt_wrapping_comparison 0xFFFFFFF0 5 <> true /\
  ~ (nvhost_syncpt_wrapping_comparison 3 5 = true <-> in_window 3 5).
Proof.
  split; [vm_compute; discriminate|].
  intros [_ H].
  assert (in_window 3 5) as W by (exists 2; split; [lia | reflexivity]).
  specialize (H W). vm_compute in H. discriminate.
Qed.

(** C2 amended: the wrapping comparison of [x] with [y] is true exactly when
    [x] lies in the window [[y, y + 2^31)] modulo [2^32]; it is true at
    (5, 3), false at (3, 5), false at (0xFFFFFFF0, 5) and true at
    (5, 0xFFFFFFF0). *)
Theorem wrapping_comparison_window x y :
  (nvhost_syncpt_wrapping_comparison x y = true <-> in_window y x) /\
  nvhost_syncpt_wrapping_comparison 5 3 = true /\
  nvhost_syncpt_wrapping_comparison 3 5 = false /\
  nvhost_syncpt_wrapping_comparison 0xFFFFFFF0 5 = false /\
  nvhost_syncpt_wrapping_comparison 5 0xFFFFFFF0 = true.
Proof.
  split; [|repeat split; reflexivity].
  rewrite wrapping_comparison_unfold, in_window_iff.
  apply Z.ltb_lt.
Qed.

(** ** Running the primitive operations *)

Section Run.
Context (cfg : nvhost_config) (env : collaborators).

Lemma bind_ok {A B} (m : M A) (k : A -> M B) sp a sp1 t1 :
  m sp = (Ok a, sp1, t1) ->
  bind m k sp = (outcome (k a sp1), final (k a sp1), t1 ++ events (k a sp1)).
Proof.
  intros E. unfold bind, outcome, final, events. rewrite E.
  destruct (k a sp1) as [[r sp2] t2]. reflexivity.
Qed.

Lemma bind_emit {B} e (k : unit -> M B) sp :
  bind (emit e) k sp = (outcome (k tt sp), final (k tt sp), e :: events (k tt sp)).
Proof. apply (bind_ok (emit e) k sp tt sp [e]). reflexivity. Qed.

Lemma bind_spin {A B} (m : M A) (k : A -> M B) sp :
  outcome (m sp) = Spin -> outcome (bind m k sp) = Spin.
Proof.
  unfold bind, outcome. destruct (m sp) as [[r sp1] t1]. cbn.
  intros ->. reflexivity.
Qed.

Lemma triple_eta {A} (r : result A * nvhost_syncpt * list event) :
  (outcome r, final r, events r) = r.
Proof. destruct r as [[? ?] ?]. reflexivity. Qed.

Lemma atomic_read_min_eq id sp mn :
  min_val sp !! Z.to_nat id = Some mn ->
  atomic_read_min id sp = (Ok (u32 mn), sp, []).
Proof. intros E. unfold atomic_read_min. rewrite E. reflexivity. Qed.

Lemma atomic_read_max_eq id sp mx :
  max_val sp !! Z.to_nat id = Some mx ->
  atomic_read_max id sp = (Ok (u32 mx), sp, []).
Proof. intros E. unfold atomic_read_max. rewrite E. reflexivity. Qed.

Lemma min_cmp_eq id thresh sp mn :
  min_val sp !! Z.to_nat id = Some mn ->
  nvhost_syncpt_min_cmp id thresh sp = (Ok (0 <=? s32 (u32 mn - thresh)), sp, []).
Proof.
  intros E. unfold nvhost_syncpt_min_cmp.
  rewrite (bind_ok _ _ _ _ _ _ (atomic_read_min_eq _ _ _ E)). reflexivity.
Qed.

Lemma min_eq_max_eq id sp mn mx :
  min_val sp !! Z.to_nat id = Some mn ->
  max_val sp !! Z.to_nat id = Some mx ->
  nvhost_syncpt_min_eq_max id sp = (Ok (u32 mn =? u32 mx), sp, []).
Proof.
  intros E1 E2. unfold nvhost_syncpt_min_eq_max.
  rewrite (bind_ok _ _ _ _ _ _ (atomic_read_min_eq _ _ _ E1)).
  rewrite (bind_ok _ _ _ _ _ _ (atomic_read_max_eq _ _ _ E2)). reflexivity.
Qed.

Lemma check_max_eq id real sp mx :
  max_val sp !! Z.to_nat id = Some mx ->
  check_max cfg id real sp =
    (Ok (client_managed cfg id || (0 <=? s32 (u32 mx - real))), sp, []).
Proof.
  intros E. unfold check_max. destruct (client_managed cfg id); [reflexivity|].
  rewrite (bind_ok _ _ _ _ _ _ (atomic_read_max_eq _ _ _ E)). reflexivity.
Qed.

Lemma check_max_client id real sp :
  client_managed cfg id = true ->
  check_max cfg id real sp = (Ok true, sp, []).
Proof. intros E. unfold check_max. rewrite E. reflexivity. Qed.

Lemma update_min_eq id sp mn mx :
  min_val sp !! Z.to_nat id = Some mn ->
  max_val sp !! Z.to_nat id = Some mx ->
  let live := u32 (readl_syncpt env id) in
  nvhost_syncpt_update_min cfg env id sp =
    ((if client_managed cfg id || (0 <=? s32 (u32 mx - live)) then Ok live else Bug),
     set_min sp id live,
     syncpt_readl id ::
       (if client_managed cfg id || (0 <=? s32 (u32 mx - live)) then []
        else [sync_reg_dump])).
Proof.
  intros E1 E2 live. unfold nvhost_syncpt_update_min.
  rewrite (bind_ok _ _ _ _ _ _ (atomic_read_min_eq _ _ _ E1)).
  rewrite bind_emit. fold live.
  assert (atomic_set_min id live sp = (Ok tt, set_min sp id live, [])) as E3.
  { unfold atomic_set_min. rewrite E1. reflexivity. }
  rewrite (bind_ok _ _ _ _ _ _ E3).
  assert (max_val (set_min sp id live) !! Z.to_nat id = Some mx) as E4 by exact E2.
  rewrite (bind_ok _ _ _ _ _ _ (check_max_eq id live _ _ E4)).
  destruct (client_managed cfg id || (0 <=? s32 (u32 mx - live))); cbn.
  - reflexivity.
  - rewrite (bind_ok _ _ _ _ _ _ (atomic_read_max_eq _ _ _ E4)), bind_emit.
    reflexivity.
Qed.

End Run.

Lemma slept_app t1 t2 : slept (t1 ++ t2) = slept t1 + slept t2.
Proof.
  induction t1 as [|e t1 IH]; [reflexivity|].
  destruct e; cbn [app slept]; lia.
Qed.

(** ** The name table *)

Lemma syncpt_name_in_table id sp :
  0 <= id < 32 ->
  exists name, s_syncpt_names !! Z.to_nat id = Some name /\
               nvhost_syncpt_name id sp = (Ok name, sp, []).
Proof.
  intros Hid. unfold nvhost_syncpt_name.
  assert ((id >? ARRAY_SIZE s_syncpt_names) = false) as ->.
  { change (ARRAY_SIZE s_syncpt_names) with 32. lia. }
  destruct (s_syncpt_names !! Z.to_nat id) as [name|] eqn:E.
  - exists name. split; reflexivity.
  - apply lookup_ge_None in E. change (length s_syncpt_names) with 32%nat in E. lia.
Qed.

Lemma syncpt_name_above_table id sp :
  32 < id -> nvhost_syncpt_name id sp = (Bug, sp, []).
Proof.
  intros Hid. unfold nvhost_syncpt_name.
  assert ((id >? ARRAY_SIZE s_syncpt_names) = true) as ->.
  { change (ARRAY_SIZE s_syncpt_names) with 32. lia. }
  reflexivity.
Qed.

(** ** The blocking loop *)

Section Loop.
Context (cfg : nvhost_config) (env : collaborators).
Variables (id thresh : Z).
Hypothesis Hid : 0 <= id < 32.

Lemma wait_loop_step fuel n timeout sp :
  timeout <> 0 ->
  wait_event_interruptible_timeout env n
    (Z.min (u32 (SYNCPT_CHECK_PERIOD cfg)) timeout) = 0 ->
  let check := Z.min (u32 (SYNCPT_CHECK_PERIOD cfg)) timeout in
  let timeout' :=
    if negb (timeout =? u32 (NVHOST_NO_TIMEOUT cfg))
    then u32 (timeout - SYNCPT_CHECK_PERIOD cfg) else timeout in
  let r := wait_loop cfg env fuel id thresh (S n) timeout' sp in
  exists warn,
    slept warn = 0 /\
    wait_loop cfg env (S fuel) id thresh n timeout sp =
      (outcome r, final r, wait_event check :: warn ++ events r).
Proof using Hid.
  intros Ht Hs check timeout' r.
  destruct (syncpt_name_in_table id sp Hid) as (name & _ & Hn).
  exists (if negb (timeout' =? 0) then [warn_stuck id name thresh timeout'] else []).
  split; [destruct (negb (timeout' =? 0)); reflexivity|].
  cbn [wait_loop]. apply Z.eqb_neq in Ht. rewrite Ht.
  rewrite bind_emit. fold check. fold timeout'. subst check. rewrite Hs.
  cbn [Z.eqb negb].
  assert ((if negb (timeout' =? 0)
           then name0 <- nvhost_syncpt_name id ;;
                emit (warn_stuck id name0 thresh timeout')
           else ret tt) sp
          = (Ok tt, sp,
             if negb (timeout' =? 0) then [warn_stuck id name thresh timeout'] else []))
    as E.
  { destruct (negb (timeout' =? 0)); [|reflexivity].
    rewrite (bind_ok _ _ _ _ _ _ Hn). reflexivity. }
  rewrite (bind_ok _ _ _ _ _ _ E). reflexivity.
Qed.

(** The blocking part once the wake action is registered: the value the
    loop leaves with decides the status, and the wake handle and the
    device-active claim are released. *)
Lemma wait_timeout_block_registered fuel timeout sp e sp2 t :
  timeout <> 0 ->
  nvhost_intr_add_action env id thresh = 0 ->
  wait_loop cfg env fuel id thresh O timeout sp = (Ok e, sp2, t) ->
  wait_timeout_block cfg env fuel id thresh timeout sp =
    (Ok (if e >? 0 then 0 else if e =? 0 then - EAGAIN cfg else e), sp2,
     intr_add_action id thresh :: t ++ [intr_put_ref; module_idle]).
Proof.
  intros Ht Ha El. unfold wait_timeout_block.
  apply Z.eqb_neq in Ht. rewrite Ht, bind_emit, Ha. cbn [Z.eqb negb].
  rewrite (bind_ok _ _ _ _ _ _ El). reflexivity.
Qed.

(** After [j] quiet sleeps the loop stands at its [(n + j)]-th sleep with
    [remaining j timeout] left. *)
Lemma wait_loop_quiet (j : nat) : forall fuel n timeout sp,
  quiet cfg env n j timeout ->
  let r := wait_loop cfg env fuel id thresh (n + j) (remaining cfg j timeout) sp in
  exists t,
    wait_loop cfg env (j + fuel) id thresh n timeout sp
      = (outcome r, final r, t ++ events r).
Proof using Hid.
  induction j as [|j IH]; intros fuel n timeout sp Hq r.
  - exists []. subst r. rewrite Nat.add_0_r. cbn [app Nat.add remaining].
    symmetry. apply triple_eta.
  - destruct (Hq O ltac:(lia)) as [Ht Hs]. rewrite Nat.add_0_r in Hs.
    cbn [remaining] in Ht, Hs.
    destruct (wait_loop_step (j + fuel) n timeout sp Ht Hs) as (warn & _ & E).
    fold (timeout_after_sleep cfg timeout) in E.
    assert (quiet cfg env (S n) j (timeout_after_sleep cfg timeout)) as Hq'.
    { intros i Hi. destruct (Hq (S i) ltac:(lia)) as [H1 H2].
      replace (n + S i)%nat with (S n + i)%nat in H2 by lia. split; assumption. }
    destruct (IH fuel (S n) _ sp Hq') as (t & E').
    exists (wait_event (slice cfg timeout) :: warn ++ t).
    change (S j + fuel)%nat with (S (j + fuel)). rewrite E, E'.
    subst r. cbn [outcome final events fst snd remaining].
    replace (n + S j)%nat with (S n + j)%nat by lia.
    rewrite <- app_comm_cons, <- app_assoc. reflexivity.
Qed.

(** The timeout runs out after [k] quiet sleeps: the loop leaves with 0. *)
Lemma wait_loop_times_out (k : nat) fuel timeout sp :
  (k <= fuel)%nat ->
  quiet cfg env O k timeout ->
  remaining cfg k timeout = 0 ->
  outcome (wait_loop cfg env fuel id thresh O timeout sp) = Ok 0.
Proof using Hid.
  intros Hk Hq Hz.
  destruct (wait_loop_quiet k (fuel - k) O timeout sp Hq) as (t & E).
  replace (k + (fuel - k))%nat with fuel in E by lia.
  rewrite E, Hz. cbn [outcome fst]. destruct (fuel - k)%nat; reflexivity.
Qed.

(** After [j] quiet sleeps the next one is cut short, by the predicate or by
    a signal: the loop leaves with the answer of that sleep. *)
Lemma wait_loop_leaves (j : nat) fuel timeout sp e :
  (j < fuel)%nat ->
  quiet cfg env O j timeout ->
  remaining cfg j timeout <> 0 ->
  wait_event_interruptible_timeout env j (slice cfg (remaining cfg j timeout)) = e ->
  e <> 0 ->
  outcome (wait_loop cfg env fuel id thresh O timeout sp) = Ok e.
Proof using Hid.
  intros Hj Hq Hr Hs He.
  destruct (wait_loop_quiet j (fuel - j) O timeout sp Hq) as (t & E).
  replace (j + (fuel - j))%nat with fuel in E by lia.
  rewrite E. cbn [outcome fst Nat.add].
  destruct (fuel - j)%nat as [|f] eqn:Ef; [lia|].
  cbn [wait_loop]. apply Z.eqb_neq in Hr, He. rewrite Hr, bind_emit.
  fold (slice cfg (remaining cfg j timeout)). rewrite Hs, He. reflexivity.
Qed.

(** No sleep is cut short: the predicate is never satisfied and no signal
    arrives. *)
Hypothesis Hsleep : forall n check, wait_event_interruptible_timeout env n check = 0.

(** With an odd timeout the loop never leaves: the period [2*HZ] is even,
    so what remains stays odd and never becomes 0. *)
Lemma wait_loop_odd_spins fuel : forall n timeout sp,
  Z.odd timeout = true ->
  outcome (wait_loop cfg env fuel id thresh n timeout sp) = Spin.
Proof using Hid Hsleep.
  induction fuel as [|fuel IH]; intros n timeout sp Hodd.
  - cbn [wait_loop].
    assert ((timeout =? 0) = false) as ->; [|reflexivity].
    apply Z.eqb_neq. intros ->. discriminate.
  - assert (timeout <> 0) as Ht by (intros ->; discriminate).
    destruct (wait_loop_step fuel n timeout sp Ht (Hsleep _ _)) as (warn & _ & E).
    rewrite E. cbn [outcome fst]. apply IH.
    destruct (negb (timeout =? u32 (NVHOST_NO_TIMEOUT cfg))); [|exact Hodd].
    rewrite u32_odd. unfold SYNCPT_CHECK_PERIOD.
    replace (timeout - 2 * HZ cfg) with (timeout + 2 * (- HZ cfg)) by lia.
    rewrite Z.odd_add_mul_2. exact Hodd.
Qed.

(** A finite timeout of [k] whole periods is slept away in [k] slices of
    one period each, after which the loop leaves with 0. *)
Lemma wait_loop_whole_periods (k : nat) : forall fuel n sp,
  (k <= fuel)%nat ->
  0 < SYNCPT_CHECK_PERIOD cfg ->
  Z.of_nat k * SYNCPT_CHECK_PERIOD cfg < u32 (NVHOST_NO_TIMEOUT cfg) ->
  let r := wait_loop cfg env fuel id thresh n (Z.of_nat k * SYNCPT_CHECK_PERIOD cfg) sp in
  outcome r = Ok 0 /\ final r = sp /\
  slept (events r) = Z.of_nat k * SYNCPT_CHECK_PERIOD cfg.
Proof using Hid Hsleep.
  induction k as [|k IH]; intros fuel n sp Hf HP Hlt.
  - cbn [Z.of_nat Z.mul]. destruct fuel; cbn; auto.
  - destruct fuel as [|fuel]; [lia|].
    set (P := SYNCPT_CHECK_PERIOD cfg) in *.
    pose proof (u32_range (NVHOST_NO_TIMEOUT cfg)) as Hr.
    assert (Z.of_nat (S k) * P <> 0) as Ht by nia.
    destruct (wait_loop_step fuel n _ sp Ht (Hsleep _ _)) as (warn & Hw & E).
    fold P in E. cbn zeta. rewrite E. clear E.
    assert ((Z.of_nat (S k) * P =? u32 (NVHOST_NO_TIMEOUT cfg)) = false) as ->
      by (apply Z.eqb_neq; lia).
    cbn [negb].
    assert (u32 (Z.of_nat (S k) * P - P) = Z.of_nat k * P) as ->.
    { apply u32_small_eq; nia. }
    specialize (IH fuel (S n) sp ltac:(lia) HP ltac:(nia)).
    cbn zeta in IH. destruct IH as (I1 & I2 & I3).
    cbn [outcome final events fst snd]. repeat split; [exact I1|exact I2|].
    cbn [slept]. rewrite slept_app, Hw, I3.
    assert (u32 P = P) as -> by (apply u32_small; nia).
    rewrite Z.min_l by nia. lia.
Qed.

End Loop.

(** ** The wait: fast path and the way to the blocking part *)

Section Wait.
Context (cfg : nvhost_config) (env : collaborators).
Variables (id thresh : Z) (sp : nvhost_syncpt) (mn mx : Z).
Hypothesis Hmin : min_val sp !! Z.to_nat id = Some mn.
Hypothesis Hmax : max_val sp !! Z.to_nat id = Some mx.

(** The entry check passes: the threshold was reserved. *)
Hypothesis Hguard : client_managed cfg id = false -> 0 <= s32 (u32 mx - thresh).

Lemma guard_true : client_managed cfg id || (0 <=? s32 (u32 mx - thresh)) = true.
Proof using Hguard.
  destruct (client_managed cfg id); [reflexivity|].
  cbn. apply Z.leb_le, Hguard. reflexivity.
Qed.

(** C4 amended: when the threshold passes the entry check against
    [max_val[id]] (or the counter is client-managed) and the cached
    [min_val[id]] has already reached it, the wait returns 0 for every
    timeout, leaves the registry as it was and calls nothing outside: no
    register read, no device-active claim, no wake action. *)
Theorem wait_timeout_fast_path fuel timeout :
  0 <= s32 (u32 mn - thresh) ->
  nvhost_syncpt_wait_timeout cfg env fuel id thresh timeout sp = (Ok 0, sp, []).
Proof using Hmin Hmax Hguard.
  intros Hc. unfold nvhost_syncpt_wait_timeout.
  rewrite (bind_ok _ _ _ _ _ _ (check_max_eq cfg id thresh sp mx Hmax)).
  rewrite guard_true. cbn [negb].
  rewrite (bind_ok _ _ _ _ _ _ (min_cmp_eq id thresh sp mn Hmin)).
  apply Z.leb_le in Hc. rewrite Hc. reflexivity.
Qed.

(** The forced read happens for a client-managed counter and for one whose
    minimum has not caught up with its maximum. *)
Let pending : bool := client_managed cfg id || negb (u32 mn =? u32 mx).
Let live : Z := u32 (readl_syncpt env id).

(** The cache does not satisfy the threshold, and neither does the value
    read from the register, which respects the reserved maximum. *)
Hypothesis Hcache : s32 (u32 mn - thresh) < 0.
Hypothesis Hrefresh :
  pending = true ->
  (client_managed cfg id = false -> 0 <= s32 (u32 mx - live)) /\
  s32 (live - thresh) < 0.

Lemma wait_timeout_slow_path fuel timeout :
  let sp' := if pending then set_min sp id live else sp in
  let r := wait_timeout_block cfg env fuel id thresh timeout sp' in
  nvhost_syncpt_wait_timeout cfg env fuel id thresh timeout sp =
    (outcome r, final r,
     module_busy :: (if pending then [syncpt_readl id] else []) ++ events r).
Proof using Hmin Hmax Hguard Hcache Hrefresh.
  intros sp' r. unfold nvhost_syncpt_wait_timeout.
  rewrite (bind_ok _ _ _ _ _ _ (check_max_eq cfg id thresh sp mx Hmax)).
  rewrite guard_true. cbn [negb].
  rewrite (bind_ok _ _ _ _ _ _ (min_cmp_eq id thresh sp mn Hmin)).
  assert ((0 <=? s32 (u32 mn - thresh)) = false) as -> by (apply Z.leb_gt, Hcache).
  cbn [app]. rewrite bind_emit.
  assert ((if client_managed cfg id then ret true
           else drained <- nvhost_syncpt_min_eq_max id ;; ret (negb drained)) sp
          = (Ok pending, sp, [])) as E.
  { subst pending. destruct (client_managed cfg id); [reflexivity|].
    rewrite (bind_ok _ _ _ _ _ _ (min_eq_max_eq id sp mn mx Hmin Hmax)).
    reflexivity. }
  rewrite (bind_ok _ _ _ _ _ _ E). cbn [app].
  subst r sp'. destruct pending eqn:Ep.
  - destruct (Hrefresh eq_refl) as [Hg Hl].
    pose proof (update_min_eq cfg env id sp mn mx Hmin Hmax) as U. cbn zeta in U.
    fold live in U.
    assert (client_managed cfg id || (0 <=? s32 (u32 mx - live)) = true) as G.
    { destruct (client_managed cfg id); [reflexivity|].
      cbn. apply Z.leb_le, Hg. reflexivity. }
    rewrite G in U. rewrite (bind_ok _ _ _ _ _ _ U).
    assert ((0 <=? s32 (live - thresh)) = false) as -> by (apply Z.leb_gt, Hl).
    reflexivity.
  - reflexivity.
Qed.

(** C5: when the predicate is still unsatisfied after the forced read (or
    without it, the counter being drained), a wait with timeout 0 returns
    [-EAGAIN] at once: its only calls are the device-active claim, the
    register read and the release of the claim, so it never sleeps and
    never registers a wake action. *)
Theorem wait_timeout_zero_would_block fuel :
  nvhost_syncpt_wait_timeout cfg env fuel id thresh 0 sp =
    (Ok (- EAGAIN cfg),
     (if pending then set_min sp id live else sp),
     module_busy :: (if pending then [syncpt_readl id] else []) ++ [module_idle]).
Proof using Hmin Hmax Hguard Hcache Hrefresh.
  rewrite wait_timeout_slow_path. reflexivity.
Qed.

(** C10: when the registration of the wake action fails, the wait returns
    the status of the registration; after the register read its only calls
    are the registration and the release of the device-active claim: no
    sleep and no release of a wake handle. *)
Theorem wait_timeout_add_action_fails fuel timeout :
  timeout <> 0 ->
  nvhost_intr_add_action env id thresh <> 0 ->
  nvhost_syncpt_wait_timeout cfg env fuel id thresh timeout sp =
    (Ok (nvhost_intr_add_action env id thresh),
     (if pending then set_min sp id live else sp),
     module_busy :: (if pending then [syncpt_readl id] else []) ++
       [intr_add_action id thresh; module_idle]).
Proof using Hmin Hmax Hguard Hcache Hrefresh.
  intros Ht He. rewrite wait_timeout_slow_path.
  unfold wait_timeout_block.
  apply Z.eqb_neq in Ht, He. rewrite Ht.
  rewrite bind_emit. rewrite He. reflexivity.
Qed.

(** C6 amended: of the three reported outcomes, "would block" (timeout 0)
    and "timed out" (the timeout runs out after [k] sleeps that ran their
    whole slice) are both returned as [-EAGAIN], the same value;
    "interrupted" (a sleep answers a negative value, which by the contract
    of the sleep is [-ERESTARTSYS]) is returned as [-ERESTARTSYS], which
    differs from [-EAGAIN] and from 0, so a caller always tells it from the
    other two and from success. *)
Theorem wait_timeout_reported_outcomes fuel :
  outcome (nvhost_syncpt_wait_timeout cfg env fuel id thresh 0 sp)
    = Ok (- EAGAIN cfg) /\
  (forall (k : nat) timeout,
     (0 < k <= fuel)%nat ->
     0 <= id < 32 ->
     nvhost_intr_add_action env id thresh = 0 ->
     quiet cfg env O k timeout ->
     remaining cfg k timeout = 0 ->
     outcome (nvhost_syncpt_wait_timeout cfg env fuel id thresh timeout sp)
       = Ok (- EAGAIN cfg)) /\
  (forall ERESTARTSYS (j : nat) timeout,
     interruptible ERESTARTSYS env ->
     ERESTARTSYS <> EAGAIN cfg ->
     (j < fuel)%nat ->
     0 <= id < 32 ->
     nvhost_intr_add_action env id thresh = 0 ->
     quiet cfg env O j timeout ->
     remaining cfg j timeout <> 0 ->
     wait_event_interruptible_timeout env j (slice cfg (remaining cfg j timeout)) < 0 ->
     let r := outcome (nvhost_syncpt_wait_timeout cfg env fuel id thresh timeout sp) in
     r = Ok (- ERESTARTSYS) /\ r <> Ok (- EAGAIN cfg) /\ r <> Ok 0).
Proof using Hmin Hmax Hguard Hcache Hrefresh.
  split; [|split].
  - rewrite wait_timeout_slow_path. reflexivity.
  - intros k timeout Hk Hid Ha Hq Hz.
    rewrite wait_timeout_slow_path. cbn [outcome fst].
    set (sp' := if pending then set_min sp id live else sp).
    pose proof (wait_loop_times_out cfg env id thresh Hid k fuel timeout sp'
                  ltac:(lia) Hq Hz) as L.
    destruct (wait_loop cfg env fuel id thresh O timeout sp') as [[r sp2] t] eqn:El.
    cbn [outcome fst] in L. subst r.
    assert (timeout <> 0) as Ht by (apply (Hq O); lia).
    rewrite (wait_timeout_block_registered cfg env id thresh fuel _ sp' 0 sp2 t Ht Ha El).
    reflexivity.
  - intros E j timeout Hc Hne Hj Hid Ha Hq Hr He r. subst r.
    destruct (Hc j (slice cfg (remaining cfg j timeout))) as [Hs|Hs]; [lia|].
    rewrite Hs in He.
    rewrite wait_timeout_slow_path. cbn [outcome fst].
    set (sp' := if pending then set_min sp id live else sp).
    pose proof (wait_loop_leaves cfg env id thresh Hid j fuel timeout sp' (- E)
                  Hj Hq Hr Hs ltac:(lia)) as L.
    destruct (wait_loop cfg env fuel id thresh O timeout sp') as [[r sp2] t] eqn:El.
    cbn [outcome fst] in L. subst r.
    assert (timeout <> 0) as Ht.
    { destruct j; [exact Hr|]. apply (Hq O). lia. }
    rewrite (wait_timeout_block_registered cfg env id thresh fuel _ sp' (- E) sp2 t
               Ht Ha El).
    cbn [fst].
    assert ((- E >? 0) = false) as -> by lia.
    assert ((- E =? 0) = false) as -> by lia.
    split; [reflexivity|]. split; intros [= Hv]; lia.
Qed.

(** C3 at the code: with a finite odd timeout (1 jiffy, say), a predicate
    that is never satisfied and no signal, the wait never returns the
    timed-out status, whatever number of sleeps is followed: the first slice
    is [min (2*HZ) timeout], but what is subtracted is the whole period
    [2*HZ], so the remaining time wraps around and stays odd. *)
Theorem wait_timeout_odd_never_expires fuel timeout :
  0 <= id < 32 ->
  Z.odd timeout = true ->
  nvhost_intr_add_action env id thresh = 0 ->
  (forall n check, wait_event_interruptible_timeout env n check = 0) ->
  outcome (nvhost_syncpt_wait_timeout cfg env fuel id thresh timeout sp) = Spin.
Proof using Hmin Hmax Hguard Hcache Hrefresh.
  intros Hid Hodd Ha Hs.
  rewrite wait_timeout_slow_path. cbn [outcome fst].
  unfold wait_timeout_block.
  assert ((timeout =? 0) = false) as ->.
  { apply Z.eqb_neq. intros ->. discriminate. }
  rewrite bind_emit, Ha. cbn [Z.eqb negb outcome fst].
  apply bind_spin.
  apply (wait_loop_odd_spins cfg env id thresh Hid Hs).
  exact Hodd.
Qed.

End Wait.

(** ** The CPU increment *)

Lemma cpu_incr_eq cfg id sp mn mx :
  min_val sp !! Z.to_nat id = Some mn ->
  max_val sp !! Z.to_nat id = Some mx ->
  nvhost_syncpt_cpu_incr cfg id sp =
    if negb (client_managed cfg id) && (u32 mn =? u32 mx)
    then (Bug, sp, [])
    else (Ok tt, sp, [cpu_incr_writel (BIT id)]).
Proof.
  intros E1 E2. unfold nvhost_syncpt_cpu_incr.
  destruct (client_managed cfg id); cbn [negb andb]; [reflexivity|].
  rewrite (bind_ok _ _ _ _ _ _ (min_eq_max_eq id sp mn mx E1 E2)).
  destruct (u32 mn =? u32 mx); reflexivity.
Qed.

(** C7: [nvhost_syncpt_incr] first stores [max_val[id] + 1] (in 32-bit
    arithmetic) and runs the rest, the increment pulse between the claim and
    the release of the device, on the registry so updated; and
    [nvhost_syncpt_cpu_incr] halts in [BUG()], writing nothing, for a
    counter that is not client-managed and has equal minimum and maximum,
    while for a client-managed counter it writes the one pulse [BIT(id)]. *)
Theorem incr_reserves_then_pulses cfg id sp mn mx :
  min_val sp !! Z.to_nat id = Some mn ->
  max_val sp !! Z.to_nat id = Some mx ->
  let sp' := set_max sp id (u32 (mx + 1)) in
  nvhost_syncpt_incr cfg id sp
    = (emit module_busy ;;; nvhost_syncpt_cpu_incr cfg id ;;; emit module_idle) sp' /\
  nvhost_syncpt_incr cfg id sp
    = (if negb (client_managed cfg id) && (u32 mn =? u32 (mx + 1))
       then (Bug, sp', [module_busy])
       else (Ok tt, sp', [module_busy; cpu_incr_writel (BIT id); module_idle])) /\
  (client_managed cfg id = false -> u32 mn = u32 mx ->
   nvhost_syncpt_cpu_incr cfg id sp = (Bug, sp, [])) /\
  (client_managed cfg id = true ->
   nvhost_syncpt_cpu_incr cfg id sp = (Ok tt, sp, [cpu_incr_writel (BIT id)])).
Proof.
  intros E1 E2 sp'.
  assert (nvhost_syncpt_incr_max id 1 sp = (Ok (u32 (mx + 1)), sp', [])) as Ei.
  { unfold nvhost_syncpt_incr_max. rewrite E2. reflexivity. }
  assert (nvhost_syncpt_incr cfg id sp
          = (emit module_busy ;;; nvhost_syncpt_cpu_incr cfg id ;;; emit module_idle) sp')
    as Eo.
  { unfold nvhost_syncpt_incr. rewrite (bind_ok _ _ _ _ _ _ Ei).
    cbn [app]. apply triple_eta. }
  split; [exact Eo|]. split; [|split].
  - rewrite Eo, bind_emit.
    assert (min_val sp' !! Z.to_nat id = Some mn) as E1' by exact E1.
    assert (max_val sp' !! Z.to_nat id = Some (u32 (mx + 1))) as E2'.
    { subst sp'. cbn [set_max max_val].
      apply list_lookup_insert_eq. eapply lookup_lt_Some, E2. }
    pose proof (cpu_incr_eq cfg id sp' mn _ E1' E2') as Ec.
    rewrite u32_idem in Ec.
    destruct (negb (client_managed cfg id) && (u32 mn =? u32 (mx + 1))).
    + unfold bind. rewrite Ec. reflexivity.
    + rewrite (bind_ok _ _ _ _ _ _ Ec). reflexivity.
  - intros Hc He. rewrite (cpu_incr_eq cfg id sp mn mx E1 E2), Hc, He, Z.eqb_refl.
    reflexivity.
  - intros Hc. unfold nvhost_syncpt_cpu_incr. rewrite Hc. reflexivity.
Qed.

(** ** The stale-wait check *)

Section WaitCheck.
Context (cfg : nvhost_config) (env : collaborators).
Variables (mask : Z) (sp : nvhost_syncpt).

Let N : Z := NV_HOST1X_SYNCPT_NB_PTS cfg.

(** Both arrays have one cell per counter. *)
Hypothesis Hlen_min : length (min_val sp) = Z.to_nat N.
Hypothesis Hlen_max : length (max_val sp) = Z.to_nat N.

(** The hardware has not run ahead of what was reserved. *)
Hypothesis Hreserved : forall idx mx,
  flagged mask idx = true ->
  client_managed cfg idx = false ->
  max_val sp !! Z.to_nat idx = Some mx ->
  0 <= s32 (u32 mx - u32 (readl_syncpt env idx)).

Let refresh (idx : Z) : M unit :=
  if negb (Z.land (BIT idx) mask =? 0)
  then nvhost_syncpt_update_min cfg env idx ;;; ret tt
  else ret tt.

Lemma lookup_imap_match {A B} (f : nat -> A -> B) (l : list A) (i : nat) :
  imap f l !! i = match l !! i with Some v => Some (f i v) | None => None end.
Proof. rewrite list_lookup_imap. destruct (l !! i); reflexivity. Qed.

Lemma lookup_refresh_upto k i :
  min_val (refresh_upto env mask k sp) !! i =
    match min_val sp !! i with
    | Some v => Some (if (i <? k)%nat && flagged mask (Z.of_nat i)
                      then u32 (readl_syncpt env (Z.of_nat i)) else v)
    | None => None
    end.
Proof. unfold refresh_upto. cbn [min_val]. apply lookup_imap_match. Qed.

Lemma ltb_succ_other i m : i <> m -> (i <? S m)%nat = (i <? m)%nat.
Proof.
  intros Hne. destruct (Nat.ltb_spec i m), (Nat.ltb_spec i (S m)); try reflexivity; lia.
Qed.

Lemma set_min_refresh_upto (m : nat) :
  (m < length (min_val sp))%nat ->
  flagged mask (Z.of_nat m) = true ->
  set_min (refresh_upto env mask m sp) (Z.of_nat m) (u32 (readl_syncpt env (Z.of_nat m)))
    = refresh_upto env mask (S m) sp.
Proof.
  intros Hm Ef. unfold set_min, refresh_upto. cbn [min_val max_val]. f_equal.
  rewrite Nat2Z.id. apply list_eq. intros i.
  destruct (decide (i = m)) as [->|Hne].
  - rewrite list_lookup_insert_eq by (rewrite length_imap; exact Hm).
    rewrite lookup_imap_match.
    destruct (lookup_lt_is_Some_2 (min_val sp) m Hm) as [v ->].
    rewrite Ef, (proj2 (Nat.ltb_lt m (S m))) by lia. reflexivity.
  - rewrite list_lookup_insert_ne by congruence.
    rewrite !lookup_imap_match. rewrite (ltb_succ_other i m Hne). reflexivity.
Qed.

Lemma refresh_upto_skip (m : nat) :
  flagged mask (Z.of_nat m) = false ->
  refresh_upto env mask m sp = refresh_upto env mask (S m) sp.
Proof.
  intros Ef. unfold refresh_upto. f_equal. apply imap_ext. intros i x _.
  destruct (decide (i = m)) as [->|Hne].
  - rewrite Ef, !andb_false_r. reflexivity.
  - rewrite (ltb_succ_other i m Hne). reflexivity.
Qed.

Lemma refresh_step (m : nat) :
  (m < Z.to_nat N)%nat ->
  refresh (Z.of_nat m) (refresh_upto env mask m sp) =
    (Ok tt, refresh_upto env mask (S m) sp,
     if flagged mask (Z.of_nat m) then [syncpt_readl (Z.of_nat m)] else []).
Proof using Hlen_min Hlen_max Hreserved.
  intros Hm. unfold refresh. fold (flagged mask (Z.of_nat m)).
  destruct (lookup_lt_is_Some_2 (min_val sp) m ltac:(lia)) as [mn Emn].
  destruct (lookup_lt_is_Some_2 (max_val sp) m ltac:(lia)) as [mx Emx].
  destruct (flagged mask (Z.of_nat m)) eqn:Ef.
  - assert (min_val (refresh_upto env mask m sp) !! Z.to_nat (Z.of_nat m) = Some mn)
      as E1.
    { rewrite Nat2Z.id, lookup_refresh_upto, Emn, Nat.ltb_irrefl. reflexivity. }
    assert (max_val (refresh_upto env mask m sp) !! Z.to_nat (Z.of_nat m) = Some mx)
      as E2 by (rewrite Nat2Z.id; exact Emx).
    pose proof (update_min_eq cfg env _ _ mn mx E1 E2) as U. cbn zeta in U.
    assert (client_managed cfg (Z.of_nat m)
            || (0 <=? s32 (u32 mx - u32 (readl_syncpt env (Z.of_nat m)))) = true) as G.
    { destruct (client_managed cfg (Z.of_nat m)) eqn:Ec; [reflexivity|].
      cbn. apply Z.leb_le. apply Hreserved; [exact Ef|exact Ec|].
      rewrite Nat2Z.id. exact Emx. }
    rewrite G in U. rewrite (bind_ok _ _ _ _ _ _ U). cbn.
    rewrite set_min_refresh_upto by (exact Ef || lia). reflexivity.
  - cbn. rewrite (refresh_upto_skip m Ef). reflexivity.
Qed.

Lemma refresh_from (n : nat) : forall m : nat,
  (m + n <= Z.to_nat N)%nat ->
  for_each (seqZ (Z.of_nat m) (Z.of_nat n)) refresh (refresh_upto env mask m sp) =
    (Ok tt, refresh_upto env mask (m + n) sp,
     syncpt_readl <$> List.filter (flagged mask) (seqZ (Z.of_nat m) (Z.of_nat n))).
Proof using Hlen_min Hlen_max Hreserved.
  induction n as [|n IH]; intros m Hm.
  - rewrite Nat.add_0_r. reflexivity.
  - rewrite seqZ_cons by lia. cbn [for_each List.filter].
    rewrite (bind_ok _ _ _ _ _ _ (refresh_step m ltac:(lia))).
    replace (Z.succ (Z.of_nat m)) with (Z.of_nat (S m)) by lia.
    replace (Z.pred (Z.of_nat (S n))) with (Z.of_nat n) by lia.
    rewrite (IH (S m)) by lia.
    cbn [outcome final events fst snd].
    replace (S m + n)%nat with (m + S n)%nat by lia.
    destruct (flagged mask (Z.of_nat m)); reflexivity.
Qed.

Lemma refresh_upto_0 : refresh_upto env mask 0 sp = sp.
Proof.
  assert (min_val (refresh_upto env mask 0 sp) = min_val sp) as E.
  { apply list_eq. intros i. rewrite lookup_refresh_upto.
    destruct (min_val sp !! i); reflexivity. }
  unfold refresh_upto in *. cbn [min_val] in E. rewrite E.
  destruct sp; reflexivity.
Qed.

Lemma refresh_all :
  0 <= N ->
  for_each (seqZ 0 N) refresh sp =
    (Ok tt, refresh_flagged env mask sp,
     syncpt_readl <$> List.filter (flagged mask) (seqZ 0 N)).
Proof using Hlen_min Hlen_max Hreserved.
  intros HN. pose proof (refresh_from (Z.to_nat N) 0 ltac:(lia)) as R.
  rewrite refresh_upto_0 in R. rewrite Z2Nat.id in R by exact HN.
  change (Z.of_nat 0) with 0 in R. rewrite R.
  unfold refresh_flagged. rewrite Hlen_min. reflexivity.
Qed.

Lemma cached_refresh_flagged id :
  0 <= id < N ->
  min_val (refresh_flagged env mask sp) !! Z.to_nat id
    = Some (if flagged mask id then u32 (readl_syncpt env id)
            else default 0 (min_val sp !! Z.to_nat id)).
Proof using Hlen_min.
  clear Hlen_max Hreserved.
  intros Hid. unfold refresh_flagged. rewrite lookup_refresh_upto.
  destruct (lookup_lt_is_Some_2 (min_val sp) (Z.to_nat id) ltac:(lia)) as [v Ev].
  rewrite Ev. cbn [default from_option]. rewrite Z2Nat.id by lia.
  assert ((Z.to_nat id <? length (min_val sp))%nat = true) as ->
    by (apply Nat.ltb_lt; lia).
  reflexivity.
Qed.

Lemma read_refreshed id :
  0 <= id < N ->
  atomic_read_min id (refresh_flagged env mask sp)
    = (Ok (cached_after env mask sp id), refresh_flagged env mask sp, []).
Proof using Hlen_min.
  intros Hid. rewrite (atomic_read_min_eq _ _ _ (cached_refresh_flagged id Hid)).
  unfold cached_after, cached. destruct (flagged mask id); [|reflexivity].
  rewrite u32_idem. reflexivity.
Qed.

Let sp1 : nvhost_syncpt := refresh_flagged env mask sp.

Lemma wait_check_loop_cons w l :
  0 <= syncpt_id w < N ->
  wait_check_loop cfg env (w :: l) sp1 =
    if stale env mask sp w then
      if patch_status cfg env w =? 0
      then (outcome (wait_check_loop cfg env l sp1),
            final (wait_check_loop cfg env l sp1),
            patch_event cfg w :: events (wait_check_loop cfg env l sp1))
      else (Ok (patch_status cfg env w), sp1, [patch_event cfg w])
    else wait_check_loop cfg env l sp1.
Proof using Hlen_min.
  clear Hlen_max Hreserved.
  intros Hid. cbn [wait_check_loop]. fold N.
  assert ((syncpt_id w >? N) = false) as -> by lia.
  rewrite (bind_ok _ _ _ _ _ _ (read_refreshed (syncpt_id w) Hid)).
  fold sp1. fold (stale env mask sp w).
  destruct (stale env mask sp w); [|cbn [app]; apply triple_eta].
  rewrite bind_emit. fold (always_true cfg). fold (patch_status cfg env w).
  fold (patch_event cfg w).
  destruct (patch_status cfg env w =? 0); reflexivity.
Qed.

(** No patch fails: every stale descriptor is patched, in order, and the
    status is 0. *)
Lemma wait_check_loop_all_patched l :
  Forall (fun w => 0 <= syncpt_id w < N) l ->
  Forall (fun w => stale env mask sp w = true -> patch_status cfg env w = 0) l ->
  wait_check_loop cfg env l sp1 =
    (Ok 0, sp1, patch_event cfg <$> List.filter (stale env mask sp) l).
Proof using Hlen_min.
  clear Hlen_max Hreserved.
  induction l as [|w l IH]; intros Hr Hp; [reflexivity|].
  apply Forall_cons in Hr as [Hw Hr]. apply Forall_cons in Hp as [Hpw Hp].
  rewrite (wait_check_loop_cons w l Hw), (IH Hr Hp). cbn [List.filter].
  destruct (stale env mask sp w); [|reflexivity].
  rewrite (Hpw eq_refl). reflexivity.
Qed.

(** The first failing patch ends the run with its status; the descriptors
    behind it are not looked at. *)
Lemma wait_check_loop_first_failure l1 w l2 :
  Forall (fun w => 0 <= syncpt_id w < N) (l1 ++ w :: l2) ->
  Forall (fun w' => stale env mask sp w' = true -> patch_status cfg env w' = 0) l1 ->
  stale env mask sp w = true ->
  patch_status cfg env w <> 0 ->
  wait_check_loop cfg env (l1 ++ w :: l2) sp1 =
    (Ok (patch_status cfg env w), sp1,
     (patch_event cfg <$> List.filter (stale env mask sp) l1) ++ [patch_event cfg w]).
Proof using Hlen_min.
  clear Hlen_max Hreserved.
  induction l1 as [|w1 l1 IH]; intros Hr Hp Hs Hf.
  - cbn [app] in *. apply Forall_cons in Hr as [Hw Hr].
    rewrite (wait_check_loop_cons w l2 Hw), Hs.
    apply Z.eqb_neq in Hf. rewrite Hf. reflexivity.
  - rewrite <- app_comm_cons in *.
    apply Forall_cons in Hr as [Hw Hr]. apply Forall_cons in Hp as [Hpw Hp].
    rewrite (wait_check_loop_cons w1 _ Hw), (IH Hr Hp Hs Hf). cbn [List.filter].
    destruct (stale env mask sp w1); [|reflexivity].
    rewrite (Hpw eq_refl). reflexivity.
Qed.

(** C8: the check first reads the register of exactly the flagged counters
    into their cached minimum, in increasing order, and then walks the
    descriptors in order, patching a descriptor to the always-true wait
    exactly when the refreshed minimum of its counter has reached its
    threshold under the wrapping comparison.  When no patch fails the status
    is 0; otherwise the first failing patch ends the walk, its status is
    returned, the patches before it stay as they were made, and no
    descriptor behind it is patched. *)
Theorem wait_check_patches_stale descs :
  0 <= N ->
  Forall (fun w => 0 <= syncpt_id w < N) descs ->
  let refreshes := syncpt_readl <$> List.filter (flagged mask) (seqZ 0 N) in
  (forall id, 0 <= id < N ->
     min_val sp1 !! Z.to_nat id
       = Some (if flagged mask id then u32 (readl_syncpt env id)
               else default 0 (min_val sp !! Z.to_nat id))) /\
  max_val sp1 = max_val sp /\
  (Forall (fun w => stale env mask sp w = true -> patch_status cfg env w = 0) descs ->
   nvhost_syncpt_wait_check cfg env mask (Some descs) sp =
     (Ok 0, sp1,
      refreshes ++ (patch_event cfg <$> List.filter (stale env mask sp) descs))) /\
  (forall l1 w l2,
     descs = l1 ++ w :: l2 ->
     Forall (fun w' => stale env mask sp w' = true -> patch_status cfg env w' = 0) l1 ->
     stale env mask sp w = true ->
     patch_status cfg env w <> 0 ->
     nvhost_syncpt_wait_check cfg env mask (Some descs) sp =
       (Ok (patch_status cfg env w), sp1,
        refreshes ++ (patch_event cfg <$> List.filter (stale env mask sp) l1)
          ++ [patch_event cfg w])).
Proof using Hlen_min Hlen_max Hreserved.
  intros HN Hr refreshes.
  assert (forall r : result Z * nvhost_syncpt * list event,
            wait_check_loop cfg env descs sp1 = r ->
            nvhost_syncpt_wait_check cfg env mask (Some descs) sp
              = (outcome r, final r, refreshes ++ events r)) as Hrun.
  { intros r <-. unfold nvhost_syncpt_wait_check. fold N. fold refresh.
    rewrite (bind_ok _ _ _ _ _ _ (refresh_all HN)). reflexivity. }
  split; [exact cached_refresh_flagged|]. split; [reflexivity|]. split.
  - intros Hp. apply (Hrun _ (wait_check_loop_all_patched descs Hr Hp)).
  - intros l1 w l2 -> Hp Hs Hf.
    apply (Hrun _ (wait_check_loop_first_failure l1 w l2 Hr Hp Hs Hf)).
Qed.

End WaitCheck.

(** ** Range checks on the counter id *)

Lemma wait_check_loop_rejects_above cfg env w l sp :
  NV_HOST1X_SYNCPT_NB_PTS cfg < syncpt_id w ->
  wait_check_loop cfg env (w :: l) sp = (Bug, sp, []).
Proof.
  intros H. cbn [wait_check_loop].
  assert ((syncpt_id w >? NV_HOST1X_SYNCPT_NB_PTS cfg) = true) as -> by lia.
  reflexivity.
Qed.

(** C9 at the code: both range checks compare with [>] and let the first id
    past the end through.  [nvhost_syncpt_name] at id 32, the length of the
    table, does not halt in [BUG_ON] and reads past the last entry; the
    descriptor loop at an id equal to the number of counters does not halt
    either and reads [min_val] past its last cell. *)
Theorem range_checks_admit_boundary_id :
  (forall sp, nvhost_syncpt_name (ARRAY_SIZE s_syncpt_names) sp = (Fault, sp, [])) /\
  (forall cfg env w l sp,
     0 <= NV_HOST1X_SYNCPT_NB_PTS cfg ->
     length (min_val sp) = Z.to_nat (NV_HOST1X_SYNCPT_NB_PTS cfg) ->
     syncpt_id w = NV_HOST1X_SYNCPT_NB_PTS cfg ->
     wait_check_loop cfg env (w :: l) sp = (Fault, sp, [])).
Proof.
  split; [reflexivity|].
  intros cfg env w l sp HN Hlen Hw. cbn [wait_check_loop].
  assert ((syncpt_id w >? NV_HOST1X_SYNCPT_NB_PTS cfg) = false) as -> by lia.
  unfold bind, atomic_read_min.
  assert (min_val sp !! Z.to_nat (syncpt_id w) = None) as ->.
  { apply lookup_ge_None. rewrite Hlen, Hw. lia. }
  reflexivity.
Qed.

(** ** Runs on the sample configuration *)

Ltac close :=
  first [ lia
        | vm_compute; first [reflexivity | discriminate | intro; discriminate] ].

Ltac run :=
  lazymatch goal with
  | |- quiet _ _ _ _ _ =>
      let i := fresh "i" in
      let Hi := fresh "Hi" in
      intros i Hi;
      repeat (destruct i as [|i]; [repeat split; close | try lia])
  | |- _ => repeat split; first [ close | intros; repeat split; close ]
  end.

(** The fast path on counter 0 with minimum 5, maximum 9 and threshold 3. *)
Lemma wait_timeout_fast_path_witness :
  nvhost_syncpt_wait_timeout sample_cfg (sample_env 0 0 0 (-1)) 0 0 3 7
    (sample_sp 5 9) = (Ok 0, sample_sp 5 9, []).
Proof.
  apply (wait_timeout_fast_path sample_cfg (sample_env 0 0 0 (-1)) 0 3
           (sample_sp 5 9) 5 9); run.
Defined.

(** C4 as stated fails: counter 0 is not client-managed, its cached minimum
    [2^30] has reached the threshold 0 and does not exceed its maximum
    [2^31], yet the wait halts in the entry check, because the threshold
    lies more than half the circle behind the maximum. *)
Lemma wait_timeout_fast_path_needs_guard :
  nvhost_syncpt_min_cmp 0 0 (sample_sp (2 ^ 30) (2 ^ 31))
    = (Ok true, sample_sp (2 ^ 30) (2 ^ 31), []) /\
  0 <= s32 (2 ^ 31 - 2 ^ 30) /\
  nvhost_syncpt_wait_timeout sample_cfg (sample_env 0 0 0 (-1)) 0 0 0 7
    (sample_sp (2 ^ 30) (2 ^ 31)) = (Bug, sample_sp (2 ^ 30) (2 ^ 31), []).
Proof. run. Qed.

(** A poll of counter 0 for the value 1 it has not reached. *)
Lemma wait_timeout_zero_would_block_witness :
  nvhost_syncpt_wait_timeout sample_cfg (sample_env 0 0 0 (-1)) 0 0 1 0
    (sample_sp 0 1)
  = (Ok (-11), sample_sp 0 1, [module_busy; syncpt_readl 0; module_idle]).
Proof.
  apply (wait_timeout_zero_would_block sample_cfg (sample_env 0 0 0 (-1)) 0 1
           (sample_sp 0 1) 0 1); run.
Defined.

(** The same wait with a timeout and a dispatcher that answers -12. *)
Lemma wait_timeout_add_action_fails_witness :
  nvhost_syncpt_wait_timeout sample_cfg (sample_env 0 (-12) 0 (-1)) 0 0 1 500
    (sample_sp 0 1)
  = (Ok (-12), sample_sp 0 1,
     [module_busy; syncpt_readl 0; intr_add_action 0 1; module_idle]).
Proof.
  apply (wait_timeout_add_action_fails sample_cfg (sample_env 0 (-12) 0 (-1)) 0 1
           (sample_sp 0 1) 0 1); run.
Defined.

(** C6 as stated fails: a poll with timeout 0 and a wait whose timeout of
    200 jiffies runs out return the same value, -11. *)
Lemma wait_timeout_would_block_is_timed_out :
  nvhost_syncpt_wait_timeout sample_cfg (sample_env 0 0 0 (-1)) 1 0 1 0
    (sample_sp 0 1)
  = (Ok (-11), sample_sp 0 1, [module_busy; syncpt_readl 0; module_idle]) /\
  nvhost_syncpt_wait_timeout sample_cfg (sample_env 0 0 0 (-1)) 1 0 1 200
    (sample_sp 0 1)
  = (Ok (-11), sample_sp 0 1,
     [module_busy; syncpt_readl 0; intr_add_action 0 1; wait_event 200;
      intr_put_ref; module_idle]).
Proof. run. Qed.

(** A poll, a wait of three whole periods that runs out, and a wait whose
    first sleep is interrupted, with 512 for [ERESTARTSYS]. *)
Lemma wait_timeout_reported_outcomes_witness :
  outcome (nvhost_syncpt_wait_timeout sample_cfg (sample_env 0 0 0 (-1)) 3 0 1 0
             (sample_sp 0 1)) = Ok (-11) /\
  outcome (nvhost_syncpt_wait_timeout sample_cfg (sample_env 0 0 0 (-1)) 3 0 1 600
             (sample_sp 0 1)) = Ok (-11) /\
  (let r := outcome (nvhost_syncpt_wait_timeout sample_cfg
                       (sample_env 0 0 (-512) (-1)) 3 0 1 600 (sample_sp 0 1)) in
   r = Ok (-512) /\ r <> Ok (-11) /\ r <> Ok 0).
Proof.
  split; [|split].
  - refine (proj1 (wait_timeout_reported_outcomes sample_cfg
             (sample_env 0 0 0 (-1)) 0 1 (sample_sp 0 1) 0 1 _ _ _ _ _ 3));
      run.
  - refine (proj1 (proj2 (wait_timeout_reported_outcomes sample_cfg
             (sample_env 0 0 0 (-1)) 0 1 (sample_sp 0 1) 0 1 _ _ _ _ _ 3))
             3%nat 600 _ _ _ _ _); run.
  - refine (proj2 (proj2 (wait_timeout_reported_outcomes sample_cfg
             (sample_env 0 0 (-512) (-1)) 0 1 (sample_sp 0 1) 0 1 _ _ _ _ _ 3))
             512 O 600 (fun _ _ => or_intror eq_refl) _ _ _ _ _ _ _); run.
Defined.

(** A wait of 1 jiffy: still asleep after 1000 sleeps, and what is left
    after the first sleep of 1 jiffy is 4294967097 jiffies. *)
Lemma wait_timeout_odd_never_expires_witness :
  outcome (nvhost_syncpt_wait_timeout sample_cfg (sample_env 0 0 0 (-1)) 1000 0 1 1
             (sample_sp 0 1)) = Spin /\
  events (nvhost_syncpt_wait_timeout sample_cfg (sample_env 0 0 0 (-1)) 1 0 1 1
            (sample_sp 0 1))
  = [module_busy; syncpt_readl 0; intr_add_action 0 1; wait_event 1;
     warn_stuck 0 "gfx_host" 1 4294967097].
Proof.
  split; [|run].
  apply (wait_timeout_odd_never_expires sample_cfg (sample_env 0 0 0 (-1)) 0 1
           (sample_sp 0 1) 0 1); run.
Defined.

(** An increment of counter 0 at 4 of 4, and the bare pulse on the drained
    counter 0 and on the client-managed counter 24. *)
Lemma incr_reserves_then_pulses_witness :
  nvhost_syncpt_incr sample_cfg 0 (sample_sp 4 4)
  = (Ok tt, set_max (sample_sp 4 4) 0 5,
     [module_busy; cpu_incr_writel 1; module_idle]) /\
  nvhost_syncpt_cpu_incr sample_cfg 0 (sample_sp 4 4) = (Bug, sample_sp 4 4, []) /\
  nvhost_syncpt_cpu_incr sample_cfg 24 (sample_sp 4 4)
  = (Ok tt, sample_sp 4 4, [cpu_incr_writel 16777216]).
Proof.
  split; [|split].
  - refine (proj1 (proj2 (incr_reserves_then_pulses sample_cfg 0 (sample_sp 4 4) 4 4
                            _ _))); run.
  - refine (proj1 (proj2 (proj2 (incr_reserves_then_pulses sample_cfg 0
                                   (sample_sp 4 4) 4 4 _ _))) _ _); run.
  - refine (proj2 (proj2 (proj2 (incr_reserves_then_pulses sample_cfg 24
                                   (sample_sp 4 4) 4 4 _ _))) _); run.
Defined.

(** Counter 3 is flagged and reads 7, counter 4 stays at its cached 2: the
    first and the third descriptor are stale, the second is not; in the
    second run the patch of the third fails. *)
Lemma wait_check_patches_stale_witness :
  let descs :=
    [ {| mem := 100; offset := 0; syncpt_id := 3; thresh := 5 |};
      {| mem := 101; offset := 4; syncpt_id := 3; thresh := 8 |};
      {| mem := 102; offset := 8; syncpt_id := 4; thresh := 1 |} ] in
  nvhost_syncpt_wait_check sample_cfg (sample_env 7 0 0 (-1)) (BIT 3) (Some descs)
    (sample_sp 2 9)
  = (Ok 0, set_min (sample_sp 2 9) 3 7,
     [syncpt_readl 3; patch_wait 100 0 0; patch_wait 102 8 0]) /\
  nvhost_syncpt_wait_check sample_cfg (sample_env 7 0 0 102) (BIT 3) (Some descs)
    (sample_sp 2 9)
  = (Ok (-14), set_min (sample_sp 2 9) 3 7,
     [syncpt_readl 3; patch_wait 100 0 0; patch_wait 102 8 0]).
Proof.
  assert (forall env idx mx,
            max_val (sample_sp 2 9) !! Z.to_nat idx = Some mx ->
            readl_syncpt env idx = 7 ->
            0 <= s32 (u32 mx - u32 (readl_syncpt env idx))) as Hres.
  { intros env idx mx H ->. apply lookup_replicate in H as [-> _]. run. }
  intros descs. split.
  - refine (proj1 (proj2 (proj2 (wait_check_patches_stale sample_cfg
              (sample_env 7 0 0 (-1)) (BIT 3) (sample_sp 2 9) _ _ _ descs _ _))) _).
    + reflexivity.
    + reflexivity.
    + intros idx mx _ _ H. apply (Hres _ idx mx H). reflexivity.
    + run.
    + repeat constructor; run.
    + repeat constructor; run.
  - refine (proj2 (proj2 (proj2 (wait_check_patches_stale sample_cfg
              (sample_env 7 0 0 102) (BIT 3) (sample_sp 2 9) _ _ _ descs _ _)))
              (firstn 2 descs)
              {| mem := 102; offset := 8; syncpt_id := 4; thresh := 1 |} [] _ _ _ _).
    + reflexivity.
    + reflexivity.
    + intros idx mx _ _ H. apply (Hres _ idx mx H). reflexivity.
    + run.
    + repeat constructor; run.
    + reflexivity.
    + repeat constructor; run.
    + reflexivity.
    + run.
Defined.

(** Id 32 with 32 names and 32 counters. *)
Lemma range_checks_admit_boundary_id_witness :
  nvhost_syncpt_name 32 (sample_sp 0 0) = (Fault, sample_sp 0 0, []) /\
  nvhost_syncpt_wait_check sample_cfg (sample_env 0 0 0 (-1)) 0
    (Some [ {| mem := 100; offset := 0; syncpt_id := 32; thresh := 0 |} ])
    (sample_sp 0 0)
  = (Fault, sample_sp 0 0, []).
Proof.
  split.
  - apply (proj1 range_checks_admit_boundary_id).
  - change (nvhost_syncpt_wait_check sample_cfg (sample_env 0 0 0 (-1)) 0
              (Some [ {| mem := 100; offset := 0; syncpt_id := 32; thresh := 0 |} ])
              (sample_sp 0 0))
      with (wait_check_loop sample_cfg (sample_env 0 0 0 (-1))
              [ {| mem := 100; offset := 0; syncpt_id := 32; thresh := 0 |} ]
              (sample_sp 0 0)).
    apply (proj2 range_checks_admit_boundary_id); run.
Defined.

(** * Further properties of the code *)

(** ** The comparisons as orders on the 32-bit circle *)

Lemma u32_sub_cases a b :
  0 <= a < 2 ^ 32 -> 0 <= b < 2 ^ 32 ->
  u32 (b - a) = if a <=? b then b - a else b - a + 2 ^ 32.
Proof.
  intros Ha Hb. destruct (Z.leb_spec a b).
  - apply u32_small. lia.
  - unfold u32. rewrite <- (Z.mod_add _ 1) by lia. apply Z.mod_small. lia.
Qed.

Lemma u32_flip x y :
  u32 (y - x) = if u32 (x - y) =? 0 then 0 else 2 ^ 32 - u32 (x - y).
Proof.
  unfold u32. replace (y - x) with (- (x - y)) by lia.
  destruct (Z.eqb_spec ((x - y) mod 2 ^ 32) 0) as [E|E].
  - apply Z.mod_opp_l_z; [lia|exact E].
  - apply Z.mod_opp_l_nz; [lia|exact E].
Qed.

Lemma u32_sub_zero x y : u32 (x - y) = 0 <-> u32 x = u32 y.
Proof.
  unfold u32. split.
  - intros H. apply Z.mod_divide in H; [|lia]. destruct H as [q Hq].
    replace x with (y + q * 2 ^ 32) by lia. apply Z.mod_add. lia.
  - intros H. rewrite Zminus_mod, H, Z.sub_diag. reflexivity.
Qed.

Lemma s32_nonneg_b z : (0 <=? s32 z) = (u32 z <? 2 ^ 31).
Proof.
  pose proof (s32_nonneg z).
  destruct (Z.leb_spec 0 (s32 z)), (Z.ltb_spec (u32 z) (2 ^ 31)); try reflexivity; lia.
Qed.

(** X1: on 32-bit values [nvhost_syncpt_is_between a b c] is the plain
    test [a <= b < c] when the window does not wrap ([a <= c]), and the test
    [a <= b] or [b < c] when it wraps past zero ([c < a]); a window with
    [c = a] is empty. *)
Theorem is_between_plain a b c :
  0 <= a < 2 ^ 32 -> 0 <= b < 2 ^ 32 -> 0 <= c < 2 ^ 32 ->
  (nvhost_syncpt_is_between a b c = true <->
   if a <=? c then a <= b < c else a <= b \/ b < c).
Proof.
  intros Ha Hb Hc. unfold nvhost_syncpt_is_between.
  rewrite (u32_sub_cases a b Ha Hb), (u32_sub_cases a c Ha Hc), Z.ltb_lt.
  destruct (Z.leb_spec a b), (Z.leb_spec a c); lia.
Qed.

(** X2: the wrapping comparison is reflexive; two values that have each
    reached the other are equal modulo [2^32]; and the only pairs for which
    neither has reached the other are those exactly half the circle
    apart. *)
Theorem wrapping_comparison_order x y :
  nvhost_syncpt_wrapping_comparison x x = true /\
  (nvhost_syncpt_wrapping_comparison x y = true /\
   nvhost_syncpt_wrapping_comparison y x = true <-> u32 x = u32 y) /\
  (nvhost_syncpt_wrapping_comparison x y = false /\
   nvhost_syncpt_wrapping_comparison y x = false <-> u32 (x - y) = 2 ^ 31).
Proof.
  rewrite !wrapping_comparison_unfold, Z.sub_diag.
  rewrite (u32_flip x y), <- (u32_sub_zero x y).
  pose proof (u32_range (x - y)) as Hr.
  rewrite !Z.ltb_lt, !Z.ltb_ge.
  destruct (Z.eqb_spec (u32 (x - y)) 0) as [E|E].
  - rewrite E. repeat split; try reflexivity; try lia.
  - repeat split; try reflexivity; lia.
Qed.

(** X3: the wrapping comparison is not transitive in general: when [x] has
    reached [y] and [y] has reached [z], [x] has reached [z] exactly when
    the two distances together stay below half the circle. *)
Theorem wrapping_comparison_trans x y z :
  nvhost_syncpt_wrapping_comparison x y = true ->
  nvhost_syncpt_wrapping_comparison y z = true ->
  (nvhost_syncpt_wrapping_comparison x z = true <->
   u32 (x - y) + u32 (y - z) < 2 ^ 31).
Proof.
  rewrite !wrapping_comparison_unfold, !Z.ltb_lt. intros Hxy Hyz.
  pose proof (u32_range (x - y)). pose proof (u32_range (y - z)).
  assert (u32 (x - z) = u32 (x - y) + u32 (y - z)) as ->; [|reflexivity].
  replace (x - z) with ((x - y) + (y - z)) by lia.
  unfold u32 in *. rewrite Zplus_mod. apply Z.mod_small. lia.
Qed.

(** Values 10, 5 and 1: each has reached the next, and 10 has reached 1. *)
Lemma wrapping_comparison_trans_witness :
  nvhost_syncpt_wrapping_comparison 10 1 = true <-> u32 (10 - 5) + u32 (5 - 1) < 2 ^ 31.
Proof. apply (wrapping_comparison_trans 10 5 1); reflexivity. Defined.

(** Windows [5, 9) and, wrapping, [0xFFFFFFF0, 4). *)
Lemma is_between_plain_witness :
  (nvhost_syncpt_is_between 5 7 9 = true <-> 5 <= 7 < 9) /\
  (nvhost_syncpt_is_between 0xFFFFFFF0 2 4 = true <-> 0xFFFFFFF0 <= 2 \/ 2 < 4).
Proof.
  split.
  - apply (is_between_plain 5 7 9); lia.
  - apply (is_between_plain 0xFFFFFFF0 2 4); lia.
Defined.

(** ** The entry check, the refresh and the read *)

(** X4: [check_max] never reads [max_val] for a client-managed counter and
    accepts every value; for any other counter it answers with the wrapping
    comparison of the stale-wait check: the maximum has reached the value.
    It changes nothing and calls nothing. *)
Theorem check_max_wrapping cfg id real sp :
  (client_managed cfg id = true -> check_max cfg id real sp = (Ok true, sp, [])) /\
  (forall mx, client_managed cfg id = false ->
     max_val sp !! Z.to_nat id = Some mx ->
     check_max cfg id real sp
       = (Ok (nvhost_syncpt_wrapping_comparison mx real), sp, [])) /\
  (client_managed cfg id = false ->
   max_val sp !! Z.to_nat id = None ->
   check_max cfg id real sp = (Fault, sp, [])).
Proof.
  split; [apply check_max_client|]. split.
  - intros mx Hc E. rewrite (check_max_eq cfg id real sp mx E), Hc.
    rewrite wrapping_comparison_unfold, s32_nonneg_b, u32_sub_u32_l. reflexivity.
  - intros Hc E. unfold check_max, bind, atomic_read_max. rewrite Hc, E. reflexivity.
Qed.

Lemma check_max_wrapping_witness :
  check_max sample_cfg 24 77 (sample_sp 0 1) = (Ok true, sample_sp 0 1, []) /\
  check_max sample_cfg 0 77 (sample_sp 0 1) = (Ok false, sample_sp 0 1, []) /\
  check_max sample_cfg 40 77 (sample_sp 0 1) = (Fault, sample_sp 0 1, []).
Proof.
  split; [|split].
  - apply (proj1 (check_max_wrapping sample_cfg 24 77 (sample_sp 0 1))); run.
  - apply (proj1 (proj2 (check_max_wrapping sample_cfg 0 77 (sample_sp 0 1))) 1); run.
  - apply (proj2 (proj2 (check_max_wrapping sample_cfg 40 77 (sample_sp 0 1)))); run.
Defined.

(** X5: [nvhost_syncpt_update_min] reads the register of the counter once
    and stores the value in its cached minimum; no other cached minimum and
    no maximum changes.  It returns that value with no further call, unless
    the counter is not client-managed and the value lies beyond its maximum:
    then it asks for the register dump and halts, with the cache already
    overwritten. *)
Theorem update_min_refreshes cfg env id sp mn mx :
  min_val sp !! Z.to_nat id = Some mn ->
  max_val sp !! Z.to_nat id = Some mx ->
  let live := u32 (readl_syncpt env id) in
  let r := nvhost_syncpt_update_min cfg env id sp in
  min_val (final r) !! Z.to_nat id = Some live /\
  (forall j, j <> Z.to_nat id -> min_val (final r) !! j = min_val sp !! j) /\
  max_val (final r) = max_val sp /\
  (outcome r = Ok live /\ events r = [syncpt_readl id] \/
   outcome r = Bug /\ events r = [syncpt_readl id; sync_reg_dump]) /\
  (outcome r = Bug <-> client_managed cfg id = false /\ s32 (u32 mx - live) < 0).
Proof.
  intros E1 E2 live r. subst r.
  rewrite (update_min_eq cfg env id sp mn mx E1 E2). fold live.
  cbn [events final outcome fst snd set_min min_val max_val].
  split.
  { apply list_lookup_insert_eq. eapply lookup_lt_Some, E1. }
  split; [intros j Hj; apply list_lookup_insert_ne; congruence|].
  split; [reflexivity|].
  destruct (client_managed cfg id); cbn [orb].
  - split; [left; split; reflexivity|].
    split; [discriminate|intros [? _]; discriminate].
  - destruct (Z.leb_spec 0 (s32 (u32 mx - live))).
    + split; [left; split; reflexivity|]. split; [discriminate|lia].
    + split; [right; split; reflexivity|].
      split; [intros _; split; [reflexivity|lia]|reflexivity].
Qed.

(** Counter 3 at 2 of 9: the register shows 7, and then 12. *)
Lemma update_min_refreshes_witness :
  (let r := nvhost_syncpt_update_min sample_cfg (sample_env 7 0 0 (-1)) 3
              (sample_sp 2 9) in
   min_val (final r) !! Z.to_nat 3 = Some 7 /\
   (forall j, j <> Z.to_nat 3 -> min_val (final r) !! j = min_val (sample_sp 2 9) !! j) /\
   max_val (final r) = max_val (sample_sp 2 9) /\
   (outcome r = Ok 7 /\ events r = [syncpt_readl 3] \/
    outcome r = Bug /\ events r = [syncpt_readl 3; sync_reg_dump]) /\
   (outcome r = Bug <-> client_managed sample_cfg 3 = false /\ s32 (u32 9 - 7) < 0)) /\
  (let r := nvhost_syncpt_update_min sample_cfg (sample_env 12 0 0 (-1)) 3
              (sample_sp 2 9) in
   min_val (final r) !! Z.to_nat 3 = Some 12 /\
   (forall j, j <> Z.to_nat 3 -> min_val (final r) !! j = min_val (sample_sp 2 9) !! j) /\
   max_val (final r) = max_val (sample_sp 2 9) /\
   (outcome r = Ok 12 /\ events r = [syncpt_readl 3] \/
    outcome r = Bug /\ events r = [syncpt_readl 3; sync_reg_dump]) /\
   (outcome r = Bug <-> client_managed sample_cfg 3 = false /\ s32 (u32 9 - 12) < 0)).
Proof.
  split.
  - apply (update_min_refreshes sample_cfg (sample_env 7 0 0 (-1)) 3 (sample_sp 2 9) 2 9);
      reflexivity.
  - apply (update_min_refreshes sample_cfg (sample_env 12 0 0 (-1)) 3 (sample_sp 2 9) 2 9);
      reflexivity.
Defined.

(** X6: a second refresh of the same counter, the register still showing
    the same value, returns that value again and leaves the registry as the
    first refresh made it. *)
Theorem update_min_twice cfg env id sp mn mx :
  min_val sp !! Z.to_nat id = Some mn ->
  max_val sp !! Z.to_nat id = Some mx ->
  let live := u32 (readl_syncpt env id) in
  (client_managed cfg id = false -> 0 <= s32 (u32 mx - live)) ->
  (nvhost_syncpt_update_min cfg env id ;;; nvhost_syncpt_update_min cfg env id) sp
    = (Ok live, set_min sp id live, [syncpt_readl id; syncpt_readl id]).
Proof.
  intros E1 E2 live Hg.
  assert (client_managed cfg id || (0 <=? s32 (u32 mx - live)) = true) as G.
  { destruct (client_managed cfg id); [reflexivity|].
    cbn. apply Z.leb_le, Hg. reflexivity. }
  pose proof (update_min_eq cfg env id sp mn mx E1 E2) as U1. cbn zeta in U1.
  fold live in U1. rewrite G in U1.
  assert (min_val (set_min sp id live) !! Z.to_nat id = Some live) as E1'.
  { apply list_lookup_insert_eq. eapply lookup_lt_Some, E1. }
  pose proof (update_min_eq cfg env id (set_min sp id live) live mx E1' E2) as U2.
  cbn zeta in U2. fold live in U2. rewrite G in U2.
  rewrite (bind_ok _ _ _ _ _ _ U1), U2. cbn [outcome final events fst snd app].
  unfold set_min. cbn [min_val max_val]. rewrite list_insert_insert_eq. reflexivity.
Qed.

Lemma update_min_twice_witness :
  (nvhost_syncpt_update_min sample_cfg (sample_env 7 0 0 (-1)) 3 ;;;
   nvhost_syncpt_update_min sample_cfg (sample_env 7 0 0 (-1)) 3) (sample_sp 2 9)
  = (Ok 7, set_min (sample_sp 2 9) 3 7, [syncpt_readl 3; syncpt_readl 3]).
Proof.
  apply (update_min_twice sample_cfg (sample_env 7 0 0 (-1)) 3 (sample_sp 2 9) 2 9); run.
Defined.

(** X7: [nvhost_syncpt_read] returns the value of the register between a
    claim and a release of the device; when the refresh halts, after the
    register read and the register dump, the device was claimed and is never
    released. *)
Theorem syncpt_read_bracket cfg env id sp mn mx :
  min_val sp !! Z.to_nat id = Some mn ->
  max_val sp !! Z.to_nat id = Some mx ->
  let live := u32 (readl_syncpt env id) in
  nvhost_syncpt_read cfg env id sp =
    if client_managed cfg id || (0 <=? s32 (u32 mx - live))
    then (Ok live, set_min sp id live, [module_busy; syncpt_readl id; module_idle])
    else (Bug, set_min sp id live, [module_busy; syncpt_readl id; sync_reg_dump]).
Proof.
  intros E1 E2 live. unfold nvhost_syncpt_read. rewrite bind_emit.
  pose proof (update_min_eq cfg env id sp mn mx E1 E2) as U. cbn zeta in U.
  fold live in U.
  destruct (client_managed cfg id || (0 <=? s32 (u32 mx - live))).
  - rewrite (bind_ok _ _ _ _ _ _ U). reflexivity.
  - unfold bind. rewrite U. reflexivity.
Qed.

Lemma syncpt_read_bracket_witness :
  nvhost_syncpt_read sample_cfg (sample_env 7 0 0 (-1)) 3 (sample_sp 2 9)
  = (Ok 7, set_min (sample_sp 2 9) 3 7, [module_busy; syncpt_readl 3; module_idle]) /\
  nvhost_syncpt_read sample_cfg (sample_env 12 0 0 (-1)) 3 (sample_sp 2 9)
  = (Bug, set_min (sample_sp 2 9) 3 12,
     [module_busy; syncpt_readl 3; sync_reg_dump]).
Proof.
  split.
  - apply (syncpt_read_bracket sample_cfg (sample_env 7 0 0 (-1)) 3 (sample_sp 2 9) 2 9);
      reflexivity.
  - apply (syncpt_read_bracket sample_cfg (sample_env 12 0 0 (-1)) 3 (sample_sp 2 9) 2 9);
      reflexivity.
Defined.

(** ** More on the wait and the increment *)

Lemma wait_timeout_entry cfg env fuel id thresh timeout sp mn mx :
  min_val sp !! Z.to_nat id = Some mn ->
  max_val sp !! Z.to_nat id = Some mx ->
  nvhost_syncpt_wait_timeout cfg env fuel id thresh timeout sp =
    if negb (client_managed cfg id || (0 <=? s32 (u32 mx - thresh)))
    then (Bug, sp, [])
    else if 0 <=? s32 (u32 mn - thresh) then (Ok 0, sp, [])
    else
      let r :=
        (if client_managed cfg id || negb (u32 mn =? u32 mx) then
           val <- nvhost_syncpt_update_min cfg env id ;;
           if 0 <=? s32 (val - thresh) then wait_timeout_done 0
           else wait_timeout_block cfg env fuel id thresh timeout
         else wait_timeout_block cfg env fuel id thresh timeout) sp in
      (outcome r, final r, module_busy :: events r).
Proof.
  intros E1 E2. unfold nvhost_syncpt_wait_timeout.
  rewrite (bind_ok _ _ _ _ _ _ (check_max_eq cfg id thresh sp mx E2)).
  destruct (client_managed cfg id || (0 <=? s32 (u32 mx - thresh))); [|reflexivity].
  cbn [negb]. rewrite (bind_ok _ _ _ _ _ _ (min_cmp_eq id thresh sp mn E1)).
  destruct (0 <=? s32 (u32 mn - thresh)); [reflexivity|].
  cbn [app]. rewrite bind_emit.
  assert ((if client_managed cfg id then ret true
           else drained <- nvhost_syncpt_min_eq_max id ;; ret (negb drained)) sp
          = (Ok (client_managed cfg id || negb (u32 mn =? u32 mx)), sp, [])) as E.
  { destruct (client_managed cfg id); [reflexivity|].
    rewrite (bind_ok _ _ _ _ _ _ (min_eq_max_eq id sp mn mx E1 E2)). reflexivity. }
  rewrite (bind_ok _ _ _ _ _ _ E). reflexivity.
Qed.

(** X8: a wait for a threshold that was never reserved (the counter is not
    client-managed and the threshold lies beyond its maximum) halts at once,
    for every timeout and whatever the cache holds, before any call to the
    hardware, the power gate or the dispatcher. *)
Theorem wait_timeout_unreserved_halts cfg env fuel id thresh timeout sp mx :
  max_val sp !! Z.to_nat id = Some mx ->
  client_managed cfg id = false ->
  s32 (u32 mx - thresh) < 0 ->
  nvhost_syncpt_wait_timeout cfg env fuel id thresh timeout sp = (Bug, sp, []).
Proof.
  intros E2 Hc Hlt. unfold nvhost_syncpt_wait_timeout.
  rewrite (bind_ok _ _ _ _ _ _ (check_max_eq cfg id thresh sp mx E2)), Hc.
  apply Z.leb_gt in Hlt. rewrite Hlt. reflexivity.
Qed.

Lemma wait_timeout_unreserved_halts_witness :
  nvhost_syncpt_wait_timeout sample_cfg (sample_env 0 0 0 (-1)) 5 0 11 0 (sample_sp 2 9)
  = (Bug, sample_sp 2 9, []).
Proof.
  apply (wait_timeout_unreserved_halts sample_cfg (sample_env 0 0 0 (-1)) 5 0 11 0
           (sample_sp 2 9) 9); run.
Defined.

(** X9: when the cache does not satisfy the threshold but the forced read
    does, the wait returns 0 for every timeout after the claim, the one
    register read and the release: nothing is registered with the
    dispatcher and nothing sleeps. *)
Theorem wait_timeout_satisfied_by_read cfg env fuel id thresh timeout sp mn mx :
  min_val sp !! Z.to_nat id = Some mn ->
  max_val sp !! Z.to_nat id = Some mx ->
  let live := u32 (readl_syncpt env id) in
  (client_managed cfg id = false -> 0 <= s32 (u32 mx - thresh)) ->
  s32 (u32 mn - thresh) < 0 ->
  (client_managed cfg id = false -> u32 mn <> u32 mx /\ 0 <= s32 (u32 mx - live)) ->
  0 <= s32 (live - thresh) ->
  nvhost_syncpt_wait_timeout cfg env fuel id thresh timeout sp
    = (Ok 0, set_min sp id live, [module_busy; syncpt_readl id; module_idle]).
Proof.
  intros E1 E2 live Hg Hc Hp Hl.
  rewrite (wait_timeout_entry cfg env fuel id thresh timeout sp mn mx E1 E2).
  pose proof (update_min_eq cfg env id sp mn mx E1 E2) as U. cbn zeta in U.
  fold live in U.
  apply Z.leb_gt in Hc. rewrite Hc. apply Z.leb_le in Hl.
  destruct (client_managed cfg id) eqn:Ec; cbn [orb negb] in *.
  - rewrite (bind_ok _ _ _ _ _ _ U), Hl. reflexivity.
  - destruct (Hp eq_refl) as [Hne Hm]. specialize (Hg eq_refl).
    apply Z.leb_le in Hg, Hm. apply Z.eqb_neq in Hne.
    rewrite Hg, Hne. rewrite Hm in U. cbn [negb].
    rewrite (bind_ok _ _ _ _ _ _ U), Hl. reflexivity.
Qed.

Lemma wait_timeout_satisfied_by_read_witness :
  nvhost_syncpt_wait_timeout sample_cfg (sample_env 7 0 0 (-1)) 0 3 5 100 (sample_sp 2 9)
  = (Ok 0, set_min (sample_sp 2 9) 3 7, [module_busy; syncpt_readl 3; module_idle]).
Proof.
  apply (wait_timeout_satisfied_by_read sample_cfg (sample_env 7 0 0 (-1)) 0 3 5 100
           (sample_sp 2 9) 2 9); run.
Defined.

(** X10: a wait that follows a read of the same counter takes the fast
    path whenever the value read has reached the threshold: the two
    together touch the hardware once. *)
Theorem wait_after_read_is_free cfg env fuel id thresh timeout sp mn mx :
  min_val sp !! Z.to_nat id = Some mn ->
  max_val sp !! Z.to_nat id = Some mx ->
  let live := u32 (readl_syncpt env id) in
  (client_managed cfg id = false ->
   0 <= s32 (u32 mx - live) /\ 0 <= s32 (u32 mx - thresh)) ->
  0 <= s32 (live - thresh) ->
  (nvhost_syncpt_read cfg env id ;;;
   nvhost_syncpt_wait_timeout cfg env fuel id thresh timeout) sp
    = (Ok 0, set_min sp id live, [module_busy; syncpt_readl id; module_idle]).
Proof.
  intros E1 E2 live Hg Hl.
  assert (nvhost_syncpt_read cfg env id sp
          = (Ok live, set_min sp id live, [module_busy; syncpt_readl id; module_idle]))
    as R.
  { unfold nvhost_syncpt_read. rewrite bind_emit.
    pose proof (update_min_eq cfg env id sp mn mx E1 E2) as U. cbn zeta in U.
    fold live in U.
    assert (client_managed cfg id || (0 <=? s32 (u32 mx - live)) = true) as G.
    { destruct (client_managed cfg id); [reflexivity|].
      cbn. apply Z.leb_le, Hg. reflexivity. }
    rewrite G in U. rewrite (bind_ok _ _ _ _ _ _ U). reflexivity. }
  rewrite (bind_ok _ _ _ _ _ _ R). cbn beta.
  assert (min_val (set_min sp id live) !! Z.to_nat id = Some live) as E1'.
  { apply list_lookup_insert_eq. eapply lookup_lt_Some, E1. }
  rewrite (wait_timeout_entry cfg env fuel id thresh timeout _ live mx E1' E2).
  assert (client_managed cfg id || (0 <=? s32 (u32 mx - thresh)) = true) as ->.
  { destruct (client_managed cfg id); [reflexivity|].
    cbn. apply Z.leb_le, Hg. reflexivity. }
  assert (u32 live = live) as -> by apply u32_idem.
  apply Z.leb_le in Hl. rewrite Hl. reflexivity.
Qed.

Lemma wait_after_read_is_free_witness :
  (nvhost_syncpt_read sample_cfg (sample_env 7 0 0 (-1)) 3 ;;;
   nvhost_syncpt_wait_timeout sample_cfg (sample_env 7 0 0 (-1)) 0 3 5 100)
    (sample_sp 2 9)
  = (Ok 0, set_min (sample_sp 2 9) 3 7, [module_busy; syncpt_readl 3; module_idle]).
Proof.
  apply (wait_after_read_is_free sample_cfg (sample_env 7 0 0 (-1)) 0 3 5 100
           (sample_sp 2 9) 2 9); run.
Defined.

Lemma s32_congr a b : u32 a = u32 b -> s32 a = s32 b.
Proof. intros E. unfold s32. rewrite E. reflexivity. Qed.

Lemma u32_sub_u32_r a b : u32 (a - u32 b) = u32 (a - b).
Proof. unfold u32. rewrite Zminus_mod_idemp_r. reflexivity. Qed.

Lemma u32_succ_sub mx mn :
  u32 (mx - mn) < 2 ^ 32 - 1 -> u32 (u32 (mx + 1) - mn) = u32 (mx - mn) + 1.
Proof.
  intros H. pose proof (u32_range (mx - mn)).
  rewrite u32_sub_u32_l. replace (mx + 1 - mn) with ((mx - mn) + 1) by lia.
  unfold u32 in *. rewrite Zplus_mod. rewrite (Z.mod_small 1) by lia.
  apply Z.mod_small. lia.
Qed.

Lemma incr_run cfg id sp mn mx :
  min_val sp !! Z.to_nat id = Some mn ->
  max_val sp !! Z.to_nat id = Some mx ->
  nvhost_syncpt_incr cfg id sp =
    if negb (client_managed cfg id) && (u32 mn =? u32 (mx + 1))
    then (Bug, set_max sp id (u32 (mx + 1)), [module_busy])
    else (Ok tt, set_max sp id (u32 (mx + 1)),
          [module_busy; cpu_incr_writel (BIT id); module_idle]).
Proof.
  intros E1 E2.
  assert (nvhost_syncpt_incr_max id 1 sp
          = (Ok (u32 (mx + 1)), set_max sp id (u32 (mx + 1)), [])) as Ei.
  { unfold nvhost_syncpt_incr_max. rewrite E2. reflexivity. }
  unfold nvhost_syncpt_incr. rewrite (bind_ok _ _ _ _ _ _ Ei), bind_emit.
  assert (max_val (set_max sp id (u32 (mx + 1))) !! Z.to_nat id = Some (u32 (mx + 1)))
    as E2'.
  { apply list_lookup_insert_eq. eapply lookup_lt_Some, E2. }
  pose proof (cpu_incr_eq cfg id (set_max sp id (u32 (mx + 1))) mn _ E1 E2') as Ec.
  rewrite u32_idem in Ec.
  destruct (negb (client_managed cfg id) && (u32 mn =? u32 (mx + 1))).
  - unfold bind. rewrite Ec. reflexivity.
  - rewrite (bind_ok _ _ _ _ _ _ Ec). reflexivity.
Qed.

(** X11: [nvhost_syncpt_cpu_incr] never touches the registry, whatever it
    is given; it writes the one pulse exactly when it returns, and nothing
    when it halts or runs off an array. *)
Theorem cpu_incr_leaves_cache cfg id sp :
  let r := nvhost_syncpt_cpu_incr cfg id sp in
  final r = sp /\
  (outcome r = Ok tt /\ events r = [cpu_incr_writel (BIT id)] \/
   outcome r <> Ok tt /\ events r = []).
Proof.
  unfold nvhost_syncpt_cpu_incr, nvhost_syncpt_min_eq_max, bind,
    atomic_read_min, atomic_read_max, ret, fault, bug, emit.
  destruct (client_managed cfg id); cbn [negb].
  - split; [reflexivity|]. left. split; reflexivity.
  - destruct (min_val sp !! Z.to_nat id) as [mn|];
      [|split; [reflexivity|right; split; [discriminate|reflexivity]]].
    destruct (max_val sp !! Z.to_nat id) as [mx|];
      [|split; [reflexivity|right; split; [discriminate|reflexivity]]].
    cbn. destruct (u32 mn =? u32 mx); cbn.
    + split; [reflexivity|]. right. split; [discriminate|reflexivity].
    + split; [reflexivity|]. left. split; reflexivity.
Qed.

(** X12: as long as fewer than [2^32 - 1] increments are outstanding,
    [nvhost_syncpt_incr] returns, having claimed the device, written one
    pulse and released the device, and one more increment is outstanding;
    with exactly [2^32 - 1] outstanding on a counter that is not
    client-managed the new maximum meets the minimum and the call halts
    with the device claimed. *)
Theorem incr_outstanding cfg id sp mn mx :
  min_val sp !! Z.to_nat id = Some mn ->
  max_val sp !! Z.to_nat id = Some mx ->
  let sp' := set_max sp id (u32 (mx + 1)) in
  (u32 (mx - mn) < 2 ^ 32 - 1 ->
   nvhost_syncpt_incr cfg id sp
     = (Ok tt, sp', [module_busy; cpu_incr_writel (BIT id); module_idle]) /\
   u32 (u32 (mx + 1) - mn) = u32 (mx - mn) + 1) /\
  (client_managed cfg id = false ->
   u32 (mx - mn) = 2 ^ 32 - 1 ->
   nvhost_syncpt_incr cfg id sp = (Bug, sp', [module_busy])).
Proof.
  intros E1 E2 sp'. rewrite (incr_run cfg id sp mn mx E1 E2). fold sp'. split.
  - intros H. split; [|apply u32_succ_sub, H].
    assert ((u32 mn =? u32 (mx + 1)) = false) as ->; [|rewrite andb_false_r; reflexivity].
    apply Z.eqb_neq. intros E. symmetry in E. apply u32_sub_zero in E.
    pose proof (u32_succ_sub mx mn H) as S. rewrite u32_sub_u32_l in S.
    pose proof (u32_range (mx - mn)). lia.
  - intros Hc H. rewrite Hc. cbn [negb andb].
    assert ((u32 mn =? u32 (mx + 1)) = true) as ->; [|reflexivity].
    apply Z.eqb_eq. symmetry. apply u32_sub_zero.
    replace (mx + 1 - mn) with ((mx - mn) + 1) by lia.
    unfold u32 in *. rewrite Zplus_mod, H. reflexivity.
Qed.

Lemma incr_outstanding_witness :
  (nvhost_syncpt_incr sample_cfg 0 (sample_sp 4 6)
   = (Ok tt, set_max (sample_sp 4 6) 0 7,
      [module_busy; cpu_incr_writel 1; module_idle]) /\
   u32 (u32 (6 + 1) - 4) = u32 (6 - 4) + 1) /\
  nvhost_syncpt_incr sample_cfg 0 (sample_sp 4 3) = (Bug, set_max (sample_sp 4 3) 0 4,
                                                      [module_busy]).
Proof.
  split.
  - apply (proj1 (incr_outstanding sample_cfg 0 (sample_sp 4 6) 4 6 eq_refl eq_refl)); run.
  - apply (proj2 (incr_outstanding sample_cfg 0 (sample_sp 4 3) 4 3 eq_refl eq_refl)); run.
Defined.

(** X13: right after an increment of a counter that is not
    client-managed, the new maximum passes the entry check of a wait, while
    a wait for one more than the new maximum halts at its entry: the
    increment is followed by no call at all. *)
Theorem wait_after_incr cfg env fuel id timeout sp mn mx :
  min_val sp !! Z.to_nat id = Some mn ->
  max_val sp !! Z.to_nat id = Some mx ->
  client_managed cfg id = false ->
  u32 (mx - mn) < 2 ^ 32 - 1 ->
  let sp' := set_max sp id (u32 (mx + 1)) in
  let pulse := [module_busy; cpu_incr_writel (BIT id); module_idle] in
  (nvhost_syncpt_incr cfg id ;;; check_max cfg id (u32 (mx + 1))) sp
    = (Ok true, sp', pulse) /\
  (nvhost_syncpt_incr cfg id ;;;
   nvhost_syncpt_wait_timeout cfg env fuel id (u32 (mx + 2)) timeout) sp
    = (Bug, sp', pulse).
Proof.
  intros E1 E2 Hc H sp' pulse.
  assert (nvhost_syncpt_incr cfg id sp = (Ok tt, sp', pulse)) as R.
  { rewrite (incr_run cfg id sp mn mx E1 E2). fold sp'.
    assert ((u32 mn =? u32 (mx + 1)) = false) as ->; [|rewrite andb_false_r; reflexivity].
    apply Z.eqb_neq. intros E. symmetry in E. apply u32_sub_zero in E.
    pose proof (u32_succ_sub mx mn H) as S. rewrite u32_sub_u32_l in S.
    pose proof (u32_range (mx - mn)). lia. }
  assert (max_val sp' !! Z.to_nat id = Some (u32 (mx + 1))) as E2'.
  { apply list_lookup_insert_eq. eapply lookup_lt_Some, E2. }
  rewrite !(bind_ok _ _ _ _ _ _ R). cbn beta. split.
  - rewrite (check_max_eq cfg id _ sp' _ E2'), Hc, u32_idem, Z.sub_diag.
    subst pulse. reflexivity.
  - unfold nvhost_syncpt_wait_timeout.
    rewrite (bind_ok _ _ _ _ _ _ (check_max_eq cfg id _ sp' _ E2')), Hc.
    assert (s32 (u32 (u32 (mx + 1)) - u32 (mx + 2)) = -1) as ->.
    { rewrite (s32_congr _ (-1)); [reflexivity|].
      rewrite u32_idem, u32_sub_u32_l, u32_sub_u32_r. f_equal. lia. }
    subst pulse. reflexivity.
Qed.

Lemma wait_after_incr_witness :
  (nvhost_syncpt_incr sample_cfg 0 ;;; check_max sample_cfg 0 (u32 (6 + 1))) (sample_sp 4 6)
    = (Ok true, set_max (sample_sp 4 6) 0 7,
       [module_busy; cpu_incr_writel 1; module_idle]) /\
  (nvhost_syncpt_incr sample_cfg 0 ;;;
   nvhost_syncpt_wait_timeout sample_cfg (sample_env 0 0 0 (-1)) 3 0 (u32 (6 + 2)) 50)
    (sample_sp 4 6)
    = (Bug, set_max (sample_sp 4 6) 0 7, [module_busy; cpu_incr_writel 1; module_idle]).
Proof.
  apply (wait_after_incr sample_cfg (sample_env 0 0 0 (-1)) 3 0 50 (sample_sp 4 6) 4 6);
    run.
Defined.

(** ** The blocking part of the wait *)

Section Blocking.
Context (cfg : nvhost_config) (env : collaborators).
Variables (id thresh : Z) (sp : nvhost_syncpt) (mn mx : Z).
Hypothesis Hid : 0 <= id < 32.
Hypothesis Hmin : min_val sp !! Z.to_nat id = Some mn.
Hypothesis Hmax : max_val sp !! Z.to_nat id = Some mx.
Hypothesis Hguard : client_managed cfg id = false -> 0 <= s32 (u32 mx - thresh).
Hypothesis Hcache : s32 (u32 mn - thresh) < 0.
Hypothesis Hrefresh :
  client_managed cfg id || negb (u32 mn =? u32 mx) = true ->
  (client_managed cfg id = false -> 0 <= s32 (u32 mx - u32 (readl_syncpt env id))) /\
  s32 (u32 (readl_syncpt env id) - thresh) < 0.

(** The wake action is registered. *)
Hypothesis Hadd : nvhost_intr_add_action env id thresh = 0.

(** With the "no timeout" value left, a sleep that runs its whole slice
    leaves the loop where it was: the same value is left, which the warning
    reports, and the next sleep has the same slice. *)
Lemma wait_loop_no_timeout fuel name : forall n sp0,
  u32 (NVHOST_NO_TIMEOUT cfg) <> 0 ->
  s_syncpt_names !! Z.to_nat id = Some name ->
  (forall n check, wait_event_interruptible_timeout env n check = 0) ->
  let forever := u32 (NVHOST_NO_TIMEOUT cfg) in
  wait_loop cfg env fuel id thresh n forever sp0 =
    (Spin, sp0,
     concat (replicate fuel
               [wait_event (slice cfg forever); warn_stuck id name thresh forever])).
Proof using Hid.
  induction fuel as [|fuel IH]; intros n sp0 Hnz Hname Hs forever.
  - cbn [wait_loop]. apply Z.eqb_neq in Hnz. subst forever. rewrite Hnz. reflexivity.
  - destruct (syncpt_name_in_table id sp0 Hid) as (name' & Hl & Hn).
    assert (name' = name) as -> by congruence.
    specialize (IH (S n) sp0 Hnz Hname Hs). cbn zeta in IH.
    cbn [wait_loop]. fold forever.
    assert ((forever =? 0) = false) as E0 by (apply Z.eqb_neq, Hnz).
    rewrite E0, Hs, !Z.eqb_refl. cbn [Z.eqb negb]. rewrite E0. cbn [negb].
    rewrite bind_emit.
    assert ((name0 <- nvhost_syncpt_name id ;;
             emit (warn_stuck id name0 thresh forever)) sp0
            = (Ok tt, sp0, [warn_stuck id name thresh forever])) as Ew.
    { rewrite (bind_ok _ _ _ _ _ _ Hn). reflexivity. }
    rewrite (bind_ok _ _ _ _ _ _ Ew). fold forever in IH. rewrite IH.
    reflexivity.
Qed.

(** X14: a wait with the "no timeout" value never returns while no sleep
    is cut short, and the loop never decrements what is left: however many
    sleeps are followed, each has the same slice and each is followed by
    the warning that reports the "no timeout" value itself as the time
    left. *)
Theorem wait_timeout_forever fuel name :
  u32 (NVHOST_NO_TIMEOUT cfg) <> 0 ->
  s_syncpt_names !! Z.to_nat id = Some name ->
  (forall n check, wait_event_interruptible_timeout env n check = 0) ->
  let forever := u32 (NVHOST_NO_TIMEOUT cfg) in
  let pending := client_managed cfg id || negb (u32 mn =? u32 mx) in
  nvhost_syncpt_wait_timeout cfg env fuel id thresh forever sp =
    (Spin,
     (if pending then set_min sp id (u32 (readl_syncpt env id)) else sp),
     module_busy :: (if pending then [syncpt_readl id] else []) ++
       intr_add_action id thresh ::
       concat (replicate fuel
                 [wait_event (slice cfg forever);
                  warn_stuck id name thresh forever])).
Proof using Hid Hmin Hmax Hguard Hcache Hrefresh Hadd.
  intros Hnz Hname Hs forever pending.
  rewrite (wait_timeout_slow_path cfg env id thresh sp mn mx Hmin Hmax Hguard Hcache
             Hrefresh).
  fold pending.
  set (sp' := if pending then set_min sp id (u32 (readl_syncpt env id)) else sp).
  unfold wait_timeout_block.
  assert ((forever =? 0) = false) as -> by (apply Z.eqb_neq, Hnz).
  rewrite bind_emit, Hadd. cbn [Z.eqb negb].
  pose proof (wait_loop_no_timeout fuel name O sp' Hnz Hname Hs) as L.
  cbn zeta in L. fold forever in L.
  unfold bind. rewrite L. reflexivity.
Qed.

(** X15: when, after [j] sleeps that ran their whole slice, the next sleep
    answers a positive value (the predicate has become true), the wait
    returns 0, and the last two calls are the release of the wake handle
    and the release of the device. *)
Theorem wait_timeout_woken (j : nat) fuel timeout e :
  (j < fuel)%nat ->
  quiet cfg env O j timeout ->
  remaining cfg j timeout <> 0 ->
  wait_event_interruptible_timeout env j (slice cfg (remaining cfg j timeout)) = e ->
  0 < e ->
  let r := nvhost_syncpt_wait_timeout cfg env fuel id thresh timeout sp in
  outcome r = Ok 0 /\
  exists calls, events r = calls ++ [intr_put_ref; module_idle].
Proof using Hid Hmin Hmax Hguard Hcache Hrefresh Hadd.
  intros Hj Hq Hr Hs He r. subst r.
  rewrite (wait_timeout_slow_path cfg env id thresh sp mn mx Hmin Hmax Hguard Hcache
             Hrefresh).
  set (pending := client_managed cfg id || negb (u32 mn =? u32 mx)).
  set (sp' := if pending then set_min sp id (u32 (readl_syncpt env id)) else sp).
  pose proof (wait_loop_leaves cfg env id thresh Hid j fuel timeout sp' e
                Hj Hq Hr Hs ltac:(lia)) as L.
  destruct (wait_loop cfg env fuel id thresh O timeout sp') as [[r sp2] t] eqn:El.
  cbn [outcome fst] in L. subst r.
  assert (timeout <> 0) as Ht.
  { destruct j; [exact Hr|]. apply (Hq O). lia. }
  rewrite (wait_timeout_block_registered cfg env id thresh fuel _ sp' e sp2 t Ht Hadd El).
  cbn [outcome events fst snd].
  assert ((e >? 0) = true) as -> by lia.
  split; [reflexivity|].
  exists (module_busy :: (if pending then [syncpt_readl id] else [])
            ++ intr_add_action id thresh :: t).
  rewrite <- !app_comm_cons, <- !app_assoc. reflexivity.
Qed.

(** X16: a finite timeout of [k] whole check periods, below the sentinel,
    with no sleep cut short: the wait returns [-EAGAIN] and the slices it
    slept add up to exactly the timeout. *)
Theorem wait_timeout_whole_periods (k : nat) fuel :
  (0 < k <= fuel)%nat ->
  0 < SYNCPT_CHECK_PERIOD cfg ->
  Z.of_nat k * SYNCPT_CHECK_PERIOD cfg < u32 (NVHOST_NO_TIMEOUT cfg) ->
  (forall n check, wait_event_interruptible_timeout env n check = 0) ->
  let r := nvhost_syncpt_wait_timeout cfg env fuel id thresh
             (Z.of_nat k * SYNCPT_CHECK_PERIOD cfg) sp in
  outcome r = Ok (- EAGAIN cfg) /\
  slept (events r) = Z.of_nat k * SYNCPT_CHECK_PERIOD cfg.
Proof using Hid Hmin Hmax Hguard Hcache Hrefresh Hadd.
  intros Hk HP Hlt Hs r. subst r.
  rewrite (wait_timeout_slow_path cfg env id thresh sp mn mx Hmin Hmax Hguard Hcache
             Hrefresh).
  set (pending := client_managed cfg id || negb (u32 mn =? u32 mx)).
  set (sp' := if pending then set_min sp id (u32 (readl_syncpt env id)) else sp).
  destruct (wait_loop_whole_periods cfg env id thresh Hid Hs k fuel O sp'
              ltac:(lia) HP Hlt) as (L1 & L2 & L3).
  destruct (wait_loop cfg env fuel id thresh O
              (Z.of_nat k * SYNCPT_CHECK_PERIOD cfg) sp') as [[r sp2] t] eqn:El.
  cbn [outcome events fst snd] in L1, L3. subst r.
  assert (Z.of_nat k * SYNCPT_CHECK_PERIOD cfg <> 0) as Ht by nia.
  rewrite (wait_timeout_block_registered cfg env id thresh fuel _ sp' 0 sp2 t
             Ht Hadd El).
  cbn [outcome events fst snd]. split; [reflexivity|].
  cbn [slept]. rewrite slept_app. cbn [slept]. rewrite slept_app, L3.
  destruct pending; cbn [slept]; lia.
Qed.

End Blocking.

(** Three sleeps of a wait without timeout on counter 0: every slice is
    the whole period of 200 jiffies and every warning reports 4294967295
    jiffies left. *)
Lemma wait_timeout_forever_witness :
  nvhost_syncpt_wait_timeout sample_cfg (sample_env 0 0 0 (-1)) 3 0 1
    (u32 (-1)) (sample_sp 0 1)
  = (Spin, sample_sp 0 1,
     [module_busy; syncpt_readl 0; intr_add_action 0 1;
      wait_event 200; warn_stuck 0 "gfx_host" 1 4294967295;
      wait_event 200; warn_stuck 0 "gfx_host" 1 4294967295;
      wait_event 200; warn_stuck 0 "gfx_host" 1 4294967295]).
Proof.
  refine (wait_timeout_forever sample_cfg (sample_env 0 0 0 (-1)) 0 1
            (sample_sp 0 1) 0 1 _ _ _ _ _ _ _ 3 "gfx_host" _ _ _); run.
Defined.

Lemma wait_timeout_woken_witness :
  let r := nvhost_syncpt_wait_timeout sample_cfg (sample_env 0 0 150 (-1)) 3 0 1 600
             (sample_sp 0 1) in
  outcome r = Ok 0 /\ exists calls, events r = calls ++ [intr_put_ref; module_idle].
Proof.
  refine (wait_timeout_woken sample_cfg (sample_env 0 0 150 (-1)) 0 1 (sample_sp 0 1)
            0 1 _ _ _ _ _ _ _ O 3 600 150 _ _ _ _ _); run.
Defined.

Lemma wait_timeout_whole_periods_witness :
  let r := nvhost_syncpt_wait_timeout sample_cfg (sample_env 0 0 0 (-1)) 3 0 1 600
             (sample_sp 0 1) in
  outcome r = Ok (-11) /\ slept (events r) = 600.
Proof.
  refine (wait_timeout_whole_periods sample_cfg (sample_env 0 0 0 (-1)) 0 1
            (sample_sp 0 1) 0 1 _ _ _ _ _ _ _ 3 3 _ _ _ _); run.
Defined.

(** ** Every returning run of the wait *)

Lemma bind_inv_ok {A B} (m : M A) (k : A -> M B) sp b sp2 t :
  bind m k sp = (Ok b, sp2, t) ->
  exists a sp1 t1 t2,
    m sp = (Ok a, sp1, t1) /\ k a sp1 = (Ok b, sp2, t2) /\ t = t1 ++ t2.
Proof.
  unfold bind. destruct (m sp) as [[[a| | |] sp1] t1]; try discriminate.
  destruct (k a sp1) as [[r sp3] t2] eqn:Ek. intros [= -> -> <-].
  exists a, sp1, t1, t2. repeat split. exact Ek.
Qed.

Lemma ret_inv {A} (a b : A) sp sp1 t :
  ret a sp = (Ok b, sp1, t) -> b = a /\ sp1 = sp /\ t = [].
Proof. unfold ret. intros [= <- <- <-]. repeat split. Qed.

Lemma emit_inv e sp (x : unit) sp1 t :
  emit e sp = (Ok x, sp1, t) -> sp1 = sp /\ t = [e].
Proof. unfold emit. intros [= _ <- <-]. split; reflexivity. Qed.

Lemma atomic_read_min_inv id sp v sp1 t :
  atomic_read_min id sp = (Ok v, sp1, t) -> sp1 = sp /\ t = [].
Proof.
  unfold atomic_read_min. destruct (min_val sp !! Z.to_nat id); [|discriminate].
  intros H. apply ret_inv in H as (_ & -> & ->). split; reflexivity.
Qed.

Lemma atomic_read_max_inv id sp v sp1 t :
  atomic_read_max id sp = (Ok v, sp1, t) -> sp1 = sp /\ t = [].
Proof.
  unfold atomic_read_max. destruct (max_val sp !! Z.to_nat id); [|discriminate].
  intros H. apply ret_inv in H as (_ & -> & ->). split; reflexivity.
Qed.

Lemma check_max_inv cfg id real sp v sp1 t :
  check_max cfg id real sp = (Ok v, sp1, t) -> sp1 = sp /\ t = [].
Proof.
  unfold check_max. destruct (client_managed cfg id).
  - intros H. apply ret_inv in H as (_ & -> & ->). split; reflexivity.
  - intros H. apply bind_inv_ok in H as (a & sp' & t1 & t2 & H1 & H2 & ->).
    apply atomic_read_max_inv in H1 as [-> ->].
    apply ret_inv in H2 as (_ & -> & ->). split; reflexivity.
Qed.

Lemma min_cmp_inv id thresh sp v sp1 t :
  nvhost_syncpt_min_cmp id thresh sp = (Ok v, sp1, t) -> sp1 = sp /\ t = [].
Proof.
  unfold nvhost_syncpt_min_cmp. intros H.
  apply bind_inv_ok in H as (a & sp' & t1 & t2 & H1 & H2 & ->).
  apply atomic_read_min_inv in H1 as [-> ->].
  apply ret_inv in H2 as (_ & -> & ->). split; reflexivity.
Qed.

Lemma min_eq_max_inv id sp v sp1 t :
  nvhost_syncpt_min_eq_max id sp = (Ok v, sp1, t) -> sp1 = sp /\ t = [].
Proof.
  unfold nvhost_syncpt_min_eq_max. intros H.
  apply bind_inv_ok in H as (a & sp' & t1 & t2 & H1 & H2 & ->).
  apply atomic_read_min_inv in H1 as [-> ->].
  apply bind_inv_ok in H2 as (a' & sp'' & t1' & t2' & H1' & H2' & ->).
  apply atomic_read_max_inv in H1' as [-> ->].
  apply ret_inv in H2' as (_ & -> & ->). split; reflexivity.
Qed.

Lemma update_min_inv cfg env id sp v sp1 t :
  nvhost_syncpt_update_min cfg env id sp = (Ok v, sp1, t) ->
  v = u32 (readl_syncpt env id) /\
  sp1 = set_min sp id (u32 (readl_syncpt env id)) /\
  t = [syncpt_readl id].
Proof.
  unfold nvhost_syncpt_update_min. intros H.
  apply bind_inv_ok in H as (a & sp' & t1 & t2 & H1 & H2 & ->).
  apply atomic_read_min_inv in H1 as [-> ->].
  apply bind_inv_ok in H2 as (? & sp2 & t3 & t4 & H3 & H4 & ->).
  apply emit_inv in H3 as [-> ->].
  apply bind_inv_ok in H4 as (? & sp3 & t5 & t6 & H5 & H6 & ->).
  assert (sp3 = set_min sp id (u32 (readl_syncpt env id)) /\ t5 = []) as [-> ->].
  { unfold atomic_set_min in H5. destruct (min_val sp !! Z.to_nat id); [|discriminate].
    revert H5. intros [= _ <- <-]. split; reflexivity. }
  apply bind_inv_ok in H6 as (ok & sp4 & t7 & t8 & H7 & H8 & ->).
  apply check_max_inv in H7 as [-> ->].
  destruct ok; cbn [negb] in H8.
  - apply ret_inv in H8 as (-> & -> & ->). repeat split.
  - apply bind_inv_ok in H8 as (? & ? & ? & ? & _ & H9 & _).
    apply bind_inv_ok in H9 as (? & ? & ? & ? & _ & H10 & _). discriminate.
Qed.

Lemma name_inv id sp v sp1 t :
  nvhost_syncpt_name id sp = (Ok v, sp1, t) -> sp1 = sp /\ t = [].
Proof.
  unfold nvhost_syncpt_name. destruct (id >? ARRAY_SIZE s_syncpt_names); [discriminate|].
  destruct (s_syncpt_names !! Z.to_nat id); [|discriminate].
  intros H. apply ret_inv in H as (_ & -> & ->). split; reflexivity.
Qed.

Lemma wait_loop_inv cfg env id thresh fuel : forall n timeout sp e sp2 t,
  wait_loop cfg env fuel id thresh n timeout sp = (Ok e, sp2, t) ->
  forallb sleepy t = true /\
  (e = 0 \/ e <> 0 /\ exists n' check, e = wait_event_interruptible_timeout env n' check).
Proof.
  induction fuel as [|fuel IH]; intros n timeout sp e sp2 t.
  - cbn [wait_loop]. destruct (timeout =? 0); [|discriminate].
    intros H. apply ret_inv in H as (-> & _ & ->).
    split; [reflexivity|left; reflexivity].
  - cbn [wait_loop]. destruct (timeout =? 0).
    { intros H. apply ret_inv in H as (-> & _ & ->).
      split; [reflexivity|left; reflexivity]. }
    intros H. apply bind_inv_ok in H as (? & sp1 & t1 & t2 & H1 & H2 & ->).
    apply emit_inv in H1 as [-> ->].
    destruct (Z.eqb_spec (wait_event_interruptible_timeout env n
                            (Z.min (u32 (SYNCPT_CHECK_PERIOD cfg)) timeout)) 0)
      as [E0|E0]; cbn [negb] in H2.
    + apply bind_inv_ok in H2 as (? & sp3 & t3 & t4 & H3 & H4 & ->).
      apply IH in H4 as [F V].
      assert (forallb sleepy t3 = true) as F3.
      { destruct (negb (_ =? 0)) in H3.
        - apply bind_inv_ok in H3 as (nm & sp4 & t5 & t6 & H5 & H6 & ->).
          apply name_inv in H5 as [-> ->]. apply emit_inv in H6 as [_ ->]. reflexivity.
        - apply ret_inv in H3 as (_ & _ & ->). reflexivity. }
      split; [|exact V]. cbn [app forallb sleepy andb].
      rewrite forallb_app, F3, F. reflexivity.
    + apply ret_inv in H2 as (-> & _ & ->). split; [reflexivity|].
      right. split; [exact E0|]. eauto.
Qed.

Lemma wait_timeout_block_inv cfg env fuel id thresh timeout sp v sp2 t :
  wait_timeout_block cfg env fuel id thresh timeout sp = (Ok v, sp2, t) ->
  (timeout = 0 /\ v = - EAGAIN cfg /\ t = [module_idle]) \/
  (timeout <> 0 /\ nvhost_intr_add_action env id thresh <> 0 /\
   v = nvhost_intr_add_action env id thresh /\
   t = [intr_add_action id thresh; module_idle]) \/
  (timeout <> 0 /\ nvhost_intr_add_action env id thresh = 0 /\
   exists sl, forallb sleepy sl = true /\
     t = intr_add_action id thresh :: sl ++ [intr_put_ref; module_idle] /\
     (v = 0 \/ v = - EAGAIN cfg \/
      v < 0 /\ exists n check, v = wait_event_interruptible_timeout env n check)).
Proof.
  unfold wait_timeout_block, wait_timeout_done.
  destruct (Z.eqb_spec timeout 0) as [Ht|Ht].
  { intros H. apply bind_inv_ok in H as (? & sp1 & t1 & t2 & H1 & H2 & ->).
    apply emit_inv in H1 as [-> ->]. apply ret_inv in H2 as (-> & _ & ->).
    left. repeat split. exact Ht. }
  intros H. apply bind_inv_ok in H as (? & sp1 & t1 & t2 & H1 & H2 & ->).
  apply emit_inv in H1 as [-> ->]. right.
  destruct (Z.eqb_spec (nvhost_intr_add_action env id thresh) 0) as [Ea|Ea];
    cbn [negb] in H2.
  - right. split; [exact Ht|]. split; [exact Ea|].
    apply bind_inv_ok in H2 as (e & sp3 & sl & t4 & H3 & H4 & ->).
    apply wait_loop_inv in H3 as [F V].
    apply bind_inv_ok in H4 as (? & sp4 & t5 & t6 & H5 & H6 & ->).
    apply emit_inv in H5 as [-> ->].
    apply bind_inv_ok in H6 as (? & sp5 & t7 & t8 & H7 & H8 & ->).
    apply emit_inv in H7 as [-> ->]. apply ret_inv in H8 as (-> & _ & ->).
    exists sl. split; [exact F|]. split; [reflexivity|].
    destruct V as [->|(Hne & n' & check & ->)].
    + right. left. reflexivity.
    + destruct (Z.gtb_spec (wait_event_interruptible_timeout env n' check) 0).
      * left. reflexivity.
      * right. right.
        assert ((wait_event_interruptible_timeout env n' check =? 0) = false) as ->
          by (apply Z.eqb_neq, Hne).
        split; [lia|]. eauto.
  - left. apply bind_inv_ok in H2 as (? & sp4 & t5 & t6 & H5 & H6 & ->).
    apply emit_inv in H5 as [-> ->]. apply ret_inv in H6 as (-> & _ & ->).
    repeat split; assumption.
Qed.

Lemma wait_timeout_inv cfg env fuel id thresh timeout sp v sp2 t :
  nvhost_syncpt_wait_timeout cfg env fuel id thresh timeout sp = (Ok v, sp2, t) ->
  (v = 0 /\ t = []) \/
  exists rd tail,
    (rd = [] \/ rd = [syncpt_readl id]) /\ t = module_busy :: rd ++ tail /\
    ((v = 0 /\ tail = [module_idle]) \/
     exists sp1, wait_timeout_block cfg env fuel id thresh timeout sp1
                 = (Ok v, sp2, tail)).
Proof.
  unfold nvhost_syncpt_wait_timeout. intros H.
  apply bind_inv_ok in H as (ok & sp1 & t1 & t2 & H1 & H2 & ->).
  apply check_max_inv in H1 as [-> ->].
  destruct ok; [cbn [negb] in H2|discriminate].
  apply bind_inv_ok in H2 as (cached & sp1 & t1 & t3 & H1 & H3 & ->).
  apply min_cmp_inv in H1 as [-> ->].
  destruct cached.
  { apply ret_inv in H3 as (-> & _ & ->). left. split; reflexivity. }
  right.
  apply bind_inv_ok in H3 as (? & sp1 & t1 & t4 & H1 & H4 & ->).
  apply emit_inv in H1 as [-> ->].
  apply bind_inv_ok in H4 as (pending & sp1 & t1 & t5 & H1 & H5 & ->).
  assert (sp1 = sp /\ t1 = []) as [-> ->].
  { destruct (client_managed cfg id).
    - apply ret_inv in H1 as (_ & -> & ->). split; reflexivity.
    - apply bind_inv_ok in H1 as (? & sp3 & t6 & t7 & H6 & H7 & ->).
      apply min_eq_max_inv in H6 as [-> ->]. apply ret_inv in H7 as (_ & -> & ->).
      split; reflexivity. }
  destruct pending.
  - apply bind_inv_ok in H5 as (val & sp3 & t6 & t7 & H6 & H7 & ->).
    apply update_min_inv in H6 as (-> & -> & ->).
    exists [syncpt_readl id], t7. split; [right; reflexivity|]. split; [reflexivity|].
    destruct (0 <=? s32 (u32 (readl_syncpt env id) - thresh)).
    + left. unfold wait_timeout_done in H7.
      apply bind_inv_ok in H7 as (? & sp4 & t8 & t9 & H8 & H9 & ->).
      apply emit_inv in H8 as [-> ->]. apply ret_inv in H9 as (-> & _ & ->).
      split; reflexivity.
    + right. eauto.
  - exists [], t5. split; [left; reflexivity|]. split; [reflexivity|].
    right. eauto.
Qed.

(** X17: whenever a wait returns, whatever the registry, the collaborators
    and the timeout, its calls follow the protocol: none at all (fast
    path); or a claim of the device, at most one register read, and then
    either the release alone, or a failed registration and the release, or
    a successful registration, sleeps and warnings only, the release of the
    wake handle and the release of the device.  The device is released
    exactly when it was claimed and the handle exactly when it was
    obtained. *)
Theorem wait_timeout_protocol cfg env fuel id thresh timeout sp v sp2 t :
  nvhost_syncpt_wait_timeout cfg env fuel id thresh timeout sp = (Ok v, sp2, t) ->
  t = [] \/
  exists rd, (rd = [] \/ rd = [syncpt_readl id]) /\
    (t = module_busy :: rd ++ [module_idle] \/
     (nvhost_intr_add_action env id thresh <> 0 /\
      t = module_busy :: rd ++ [intr_add_action id thresh; module_idle]) \/
     (nvhost_intr_add_action env id thresh = 0 /\
      exists sl, forallb sleepy sl = true /\
        t = module_busy :: rd ++
              intr_add_action id thresh :: sl ++ [intr_put_ref; module_idle])).
Proof.
  intros H. apply wait_timeout_inv in H as [[_ ->]|(rd & tail & Hrd & -> & H)];
    [left; reflexivity|right].
  exists rd. split; [exact Hrd|].
  destruct H as [[_ ->]|(sp1 & H)]; [left; reflexivity|].
  apply wait_timeout_block_inv in H
    as [(_ & _ & ->)|[(_ & Ha & _ & ->)|(_ & Ha & sl & F & -> & _)]].
  - left. reflexivity.
  - right. left. split; [exact Ha|reflexivity].
  - right. right. split; [exact Ha|]. exists sl. split; [exact F|reflexivity].
Qed.

Lemma wait_timeout_protocol_witness :
  let t := [module_busy; syncpt_readl 0; intr_add_action 0 1; wait_event 200;
            warn_stuck 0 "gfx_host" 1 400; wait_event 200;
            warn_stuck 0 "gfx_host" 1 200; wait_event 200;
            intr_put_ref; module_idle] in
  t = [] \/
  exists rd, (rd = [] \/ rd = [syncpt_readl 0]) /\
    (t = module_busy :: rd ++ [module_idle] \/
     (nvhost_intr_add_action (sample_env 0 0 0 (-1)) 0 1 <> 0 /\
      t = module_busy :: rd ++ [intr_add_action 0 1; module_idle]) \/
     (nvhost_intr_add_action (sample_env 0 0 0 (-1)) 0 1 = 0 /\
      exists sl, forallb sleepy sl = true /\
        t = module_busy :: rd ++
              intr_add_action 0 1 :: sl ++ [intr_put_ref; module_idle])).
Proof.
  apply (wait_timeout_protocol sample_cfg (sample_env 0 0 0 (-1)) 3 0 1 600
           (sample_sp 0 1) (-11) (sample_sp 0 1)).
  vm_compute. reflexivity.
Defined.

(** X18: the value a wait returns is 0, [-EAGAIN], the non-zero status of
    the failed registration, or the negative answer of a sleep; the positive
    answer of a sleep (jiffies left) is never passed on. *)
Theorem wait_timeout_status cfg env fuel id thresh timeout sp v sp2 t :
  nvhost_syncpt_wait_timeout cfg env fuel id thresh timeout sp = (Ok v, sp2, t) ->
  v = 0 \/ v = - EAGAIN cfg \/
  (v <> 0 /\ v = nvhost_intr_add_action env id thresh) \/
  (v < 0 /\ exists n check, v = wait_event_interruptible_timeout env n check).
Proof.
  intros H. apply wait_timeout_inv in H as [[-> _]|(rd & tail & _ & _ & H)];
    [left; reflexivity|].
  destruct H as [[-> _]|(sp1 & H)]; [left; reflexivity|].
  apply wait_timeout_block_inv in H
    as [(_ & -> & _)|[(_ & Ha & -> & _)|(_ & _ & sl & _ & _ & V)]].
  - right. left. reflexivity.
  - right. right. left. split; [exact Ha|reflexivity].
  - destruct V as [->|[->|V]]; [left; reflexivity|right; left; reflexivity|].
    right. right. right. exact V.
Qed.

Lemma wait_timeout_status_witness :
  (-512) = 0 \/ (-512) = - EAGAIN sample_cfg \/
  ((-512) <> 0 /\ (-512) = nvhost_intr_add_action (sample_env 0 0 (-512) (-1)) 0 1) \/
  ((-512) < 0 /\
   exists n check,
     (-512) = wait_event_interruptible_timeout (sample_env 0 0 (-512) (-1)) n check).
Proof.
  apply (wait_timeout_status sample_cfg (sample_env 0 0 (-512) (-1)) 3 0 1 600
           (sample_sp 0 1) (-512) (sample_sp 0 1)
           [module_busy; syncpt_readl 0; intr_add_action 0 1; wait_event 200;
            intr_put_ref; module_idle]).
  vm_compute. reflexivity.
Defined.

(** ** The name lookup *)

(** X19: [nvhost_syncpt_name] returns the entry of the table for every id
    below 32 and halts for every id above 32; it never touches the registry
    and calls nothing. *)
Theorem syncpt_name_lookup id sp :
  (0 <= id < 32 ->
   exists name, s_syncpt_names !! Z.to_nat id = Some name /\
                nvhost_syncpt_name id sp = (Ok name, sp, [])) /\
  (32 < id -> nvhost_syncpt_name id sp = (Bug, sp, [])).
Proof.
  split; [apply syncpt_name_in_table|apply syncpt_name_above_table].
Qed.

Lemma syncpt_name_lookup_witness :
  (exists name, s_syncpt_names !! Z.to_nat 22 = Some name /\
                nvhost_syncpt_name 22 (sample_sp 0 0) = (Ok name, sample_sp 0 0, [])) /\
  nvhost_syncpt_name 33 (sample_sp 0 0) = (Bug, sample_sp 0 0, []).
Proof.
  split.
  - apply (proj1 (syncpt_name_lookup 22 (sample_sp 0 0))). lia.
  - apply (proj2 (syncpt_name_lookup 33 (sample_sp 0 0))). lia.
Defined.

(** ** More on the stale-wait check *)

Lemma update_min_cases cfg env id sp :
  nvhost_syncpt_update_min cfg env id sp =
    match min_val sp !! Z.to_nat id with
    | None => (Fault, sp, [])
    | Some _ =>
        let live := u32 (readl_syncpt env id) in
        let sp' := set_min sp id live in
        if client_managed cfg id then (Ok live, sp', [syncpt_readl id])
        else match max_val sp !! Z.to_nat id with
             | None => (Fault, sp', [syncpt_readl id])
             | Some mx =>
                 if 0 <=? s32 (u32 mx - live)
                 then (Ok live, sp', [syncpt_readl id])
                 else (Bug, sp', [syncpt_readl id; sync_reg_dump])
             end
    end.
Proof.
  destruct (min_val sp !! Z.to_nat id) as [mn|] eqn:E1.
  - destruct (max_val sp !! Z.to_nat id) as [mx|] eqn:E2.
    + rewrite (update_min_eq cfg env id sp mn mx E1 E2). cbn zeta.
      destruct (client_managed cfg id); [reflexivity|]. cbn [orb].
      destruct (0 <=? s32 (u32 mx - u32 (readl_syncpt env id))); reflexivity.
    + unfold nvhost_syncpt_update_min.
      rewrite (bind_ok _ _ _ _ _ _ (atomic_read_min_eq _ _ _ E1)), bind_emit.
      assert (atomic_set_min id (u32 (readl_syncpt env id)) sp
              = (Ok tt, set_min sp id (u32 (readl_syncpt env id)), [])) as E3.
      { unfold atomic_set_min. rewrite E1. reflexivity. }
      rewrite (bind_ok _ _ _ _ _ _ E3). cbn zeta.
      destruct (client_managed cfg id) eqn:Ec.
      * rewrite (bind_ok _ _ _ _ _ _ (check_max_client cfg id _ _ Ec)). reflexivity.
      * unfold bind at 1, check_max. rewrite Ec.
        unfold bind, atomic_read_max. cbn [set_min max_val]. rewrite E2. reflexivity.
  - unfold nvhost_syncpt_update_min, bind, atomic_read_min. rewrite E1. reflexivity.
Qed.

Lemma update_min_frame cfg env id sp :
  let r := nvhost_syncpt_update_min cfg env id sp in
  max_val (final r) = max_val sp /\
  length (min_val (final r)) = length (min_val sp) /\
  match outcome r with
  | Ok _ | Fault => forallb is_readl (events r) = true
  | Bug => exists reads, forallb is_readl reads = true /\
                         events r = reads ++ [sync_reg_dump]
  | Spin => False
  end.
Proof.
  cbn zeta. rewrite update_min_cases.
  destruct (min_val sp !! Z.to_nat id); [|repeat split]. cbn zeta.
  destruct (client_managed cfg id); [repeat split; apply length_insert|].
  destruct (max_val sp !! Z.to_nat id); [|repeat split; apply length_insert].
  destruct (0 <=? s32 _); [repeat split; apply length_insert|].
  split; [reflexivity|]. split; [apply length_insert|].
  exists [syncpt_readl id]. split; reflexivity.
Qed.

Section CheckFrame.
Context (cfg : nvhost_config) (env : collaborators) (mask : Z).

Let refresh (idx : Z) : M unit :=
  if negb (Z.land (BIT idx) mask =? 0)
  then nvhost_syncpt_update_min cfg env idx ;;; ret tt
  else ret tt.

Lemma refresh_body_frame idx sp :
  let r := refresh idx sp in
  max_val (final r) = max_val sp /\
  length (min_val (final r)) = length (min_val sp) /\
  match outcome r with
  | Ok _ | Fault => forallb is_readl (events r) = true
  | Bug => exists reads, forallb is_readl reads = true /\
                         events r = reads ++ [sync_reg_dump]
  | Spin => False
  end.
Proof.
  unfold refresh. destruct (negb (Z.land (BIT idx) mask =? 0)); [|repeat split].
  pose proof (update_min_frame cfg env idx sp) as F. cbn zeta in F.
  cbn zeta. unfold bind.
  destruct (nvhost_syncpt_update_min cfg env idx sp) as [[[v| | |] sp1] t1];
    cbn [outcome final events fst snd ret] in *; try exact F.
  rewrite app_nil_r. exact F.
Qed.

(** The refresh loop: reads only, then the register dump exactly when a
    refresh halted in [BUG()]. *)
Lemma refresh_loop_frame l : forall sp,
  let r := for_each l refresh sp in
  max_val (final r) = max_val sp /\
  length (min_val (final r)) = length (min_val sp) /\
  match outcome r with
  | Ok _ | Fault => forallb is_readl (events r) = true
  | Bug => exists reads, forallb is_readl reads = true /\
                         events r = reads ++ [sync_reg_dump]
  | Spin => False
  end.
Proof.
  induction l as [|idx l IH]; intros sp; [repeat split|].
  cbn zeta. cbn [for_each].
  pose proof (refresh_body_frame idx sp) as (F1 & F2 & F3). cbn zeta in F1, F2, F3.
  unfold bind. destruct (refresh idx sp) as [[[v| | |] sp1] t1];
    cbn [outcome final events fst snd] in *; try (repeat split; assumption).
  specialize (IH sp1). cbn zeta in IH.
  destruct (for_each l refresh sp1) as [[r sp2] t2].
  cbn [outcome final events fst snd] in *. destruct IH as (I1 & I2 & I3).
  split; [congruence|]. split; [congruence|].
  destruct r as [u| | |]; try (rewrite forallb_app, F3, I3; reflexivity);
    [|exact I3].
  destruct I3 as (reads & Hr & ->). exists (t1 ++ reads).
  split; [rewrite forallb_app, F3, Hr; reflexivity|apply app_assoc].
Qed.

(** A refresh loop that comes to its end has met no flagged counter whose
    register lies beyond the maximum. *)
Lemma refresh_loop_ok l : forall sp sp1 t,
  for_each l refresh sp = (Ok tt, sp1, t) ->
  forall idx mx,
    idx ∈ l -> flagged mask idx = true -> client_managed cfg idx = false ->
    max_val sp !! Z.to_nat idx = Some mx ->
    0 <= s32 (u32 mx - u32 (readl_syncpt env idx)).
Proof.
  induction l as [|i l IH]; intros sp sp1 t H idx mx Hin Hf Hc Hm.
  - apply elem_of_nil in Hin. destruct Hin.
  - cbn [for_each] in H.
    apply bind_inv_ok in H as (? & sp2 & t1 & t2 & H1 & H2 & ->).
    pose proof (refresh_body_frame i sp) as (F1 & _ & _). rewrite H1 in F1.
    cbn [final fst snd] in F1.
    apply elem_of_cons in Hin as [->|Hin].
    + unfold refresh in H1. fold (flagged mask i) in H1. rewrite Hf in H1.
      apply bind_inv_ok in H1 as (v & sp3 & t3 & t4 & H3 & _ & _).
      unfold nvhost_syncpt_update_min in H3.
      apply bind_inv_ok in H3 as (? & ? & ? & ? & A1 & A2 & _).
      apply atomic_read_min_inv in A1 as [-> ->].
      apply bind_inv_ok in A2 as (? & ? & ? & ? & A3 & A4 & _).
      apply emit_inv in A3 as [-> ->].
      apply bind_inv_ok in A4 as (? & sp4 & ? & ? & A5 & A6 & _).
      assert (max_val sp4 = max_val sp) as Em.
      { unfold atomic_set_min in A5. destruct (min_val sp !! Z.to_nat i); [|discriminate].
        revert A5. intros [= _ <- _]. reflexivity. }
      apply bind_inv_ok in A6 as (ok & ? & ? & ? & A7 & A8 & _).
      assert (max_val sp4 !! Z.to_nat i = Some mx) as Em' by (rewrite Em; exact Hm).
      rewrite (check_max_eq cfg i _ sp4 mx Em'), Hc in A7. cbn [orb] in A7.
      revert A7. intros [= <- _ _].
      destruct (Z.leb_spec 0 (s32 (u32 mx - u32 (readl_syncpt env i)))); [assumption|].
      cbn [negb] in A8. apply bind_inv_ok in A8 as (? & ? & ? & ? & _ & A9 & _).
      apply bind_inv_ok in A9 as (? & ? & ? & ? & _ & A10 & _).
      discriminate.
    + apply (IH sp2 sp1 t2 H2 idx mx Hin Hf Hc). rewrite F1. exact Hm.
Qed.

Lemma wait_check_loop_cases w l sp :
  wait_check_loop cfg env (w :: l) sp =
    if syncpt_id w >? NV_HOST1X_SYNCPT_NB_PTS cfg then (Bug, sp, [])
    else match min_val sp !! Z.to_nat (syncpt_id w) with
         | None => (Fault, sp, [])
         | Some mn =>
             if nvhost_syncpt_wrapping_comparison (u32 mn) (thresh w) then
               if patch_status cfg env w =? 0
               then (outcome (wait_check_loop cfg env l sp),
                     final (wait_check_loop cfg env l sp),
                     patch_event cfg w :: events (wait_check_loop cfg env l sp))
               else (Ok (patch_status cfg env w), sp, [patch_event cfg w])
             else wait_check_loop cfg env l sp
         end.
Proof.
  cbn [wait_check_loop].
  destruct (syncpt_id w >? NV_HOST1X_SYNCPT_NB_PTS cfg); [reflexivity|].
  destruct (min_val sp !! Z.to_nat (syncpt_id w)) as [mn|] eqn:E.
  - rewrite (bind_ok _ _ _ _ _ _ (atomic_read_min_eq _ _ _ E)).
    destruct (nvhost_syncpt_wrapping_comparison (u32 mn) (thresh w));
      [|cbn [app]; apply triple_eta].
    rewrite bind_emit. fold (always_true cfg). fold (patch_status cfg env w).
    fold (patch_event cfg w).
    destruct (patch_status cfg env w =? 0); reflexivity.
  - unfold bind, atomic_read_min. rewrite E. reflexivity.
Qed.

Lemma wait_check_loop_frame l : forall sp,
  final (wait_check_loop cfg env l sp) = sp /\
  forallb is_patch (events (wait_check_loop cfg env l sp)) = true.
Proof.
  induction l as [|w l IH]; intros sp; [split; reflexivity|].
  rewrite wait_check_loop_cases. specialize (IH sp).
  destruct (syncpt_id w >? NV_HOST1X_SYNCPT_NB_PTS cfg); [split; reflexivity|].
  destruct (min_val sp !! Z.to_nat (syncpt_id w)) as [mn|]; [|split; reflexivity].
  destruct (nvhost_syncpt_wrapping_comparison (u32 mn) (thresh w)); [|exact IH].
  destruct (patch_status cfg env w =? 0); [|split; reflexivity].
  cbn [final events fst snd forallb]. destruct IH as [I1 I2].
  rewrite I2. split; [exact I1|reflexivity].
Qed.

(** X20: whatever it is given and however it ends,
    [nvhost_syncpt_wait_check] never changes a maximum nor the number of
    cached minima, and its calls are register reads and patches, followed
    by the register dump only when a refresh halted: it never claims the
    device, registers nothing and never sleeps. *)
Theorem wait_check_frame waitp sp :
  let r := nvhost_syncpt_wait_check cfg env mask waitp sp in
  max_val (final r) = max_val sp /\
  length (min_val (final r)) = length (min_val sp) /\
  exists calls,
    forallb (fun e => is_readl e || is_patch e) calls = true /\
    (events r = calls \/
     outcome r = Bug /\ events r = calls ++ [sync_reg_dump]).
Proof.
  unfold nvhost_syncpt_wait_check. fold refresh.
  pose proof (refresh_loop_frame (seqZ 0 (NV_HOST1X_SYNCPT_NB_PTS cfg)) sp)
    as (F1 & F2 & F3). cbn zeta in F1, F2, F3.
  assert (forall t, forallb is_readl t = true ->
                    forallb (fun e => is_readl e || is_patch e) t = true) as Wr.
  { intros t. rewrite !forallb_forall. intros H e He. rewrite (H e He). reflexivity. }
  assert (forall t, forallb is_patch t = true ->
                    forallb (fun e => is_readl e || is_patch e) t = true) as Wp.
  { intros t. rewrite !forallb_forall. intros H e He. rewrite (H e He).
    apply orb_true_r. }
  cbn zeta. unfold bind.
  destruct (for_each (seqZ 0 (NV_HOST1X_SYNCPT_NB_PTS cfg)) refresh sp)
    as [[[v| | |] sp1] t1]; cbn [outcome final events fst snd] in *.
  - destruct waitp as [descs|].
    + pose proof (wait_check_loop_frame descs sp1) as [L1 L2].
      destruct (wait_check_loop cfg env descs sp1) as [[r sp2] t2].
      cbn [final events fst snd] in *. subst sp2.
      split; [assumption|]. split; [assumption|].
      exists (t1 ++ t2). split; [|left; reflexivity].
      rewrite forallb_app, (Wr _ F3), (Wp _ L2). reflexivity.
    + cbn [bug final events fst snd]. rewrite app_nil_r.
      split; [assumption|]. split; [assumption|].
      exists t1. split; [auto|left; reflexivity].
  - destruct F3 as (reads & Hr & ->).
    split; [assumption|]. split; [assumption|].
    exists reads. split; [auto|right; split; reflexivity].
  - split; [assumption|]. split; [assumption|].
    exists t1. split; [auto|left; reflexivity].
  - destruct F3.
Qed.

(** X21: when the register of a flagged counter that is not
    client-managed lies beyond its maximum, the check does not return and
    patches nothing: it stops in the refresh, before it looks at any
    descriptor, and when it halts there its calls are register reads
    followed by the register dump. *)
Theorem wait_check_beyond_max waitp sp idx mx :
  0 <= idx < NV_HOST1X_SYNCPT_NB_PTS cfg ->
  flagged mask idx = true ->
  client_managed cfg idx = false ->
  max_val sp !! Z.to_nat idx = Some mx ->
  s32 (u32 mx - u32 (readl_syncpt env idx)) < 0 ->
  let r := nvhost_syncpt_wait_check cfg env mask waitp sp in
  (forall v, outcome r <> Ok v) /\
  exists reads,
    forallb is_readl reads = true /\
    (outcome r = Bug /\ events r = reads ++ [sync_reg_dump] \/
     outcome r = Fault /\ events r = reads).
Proof.
  intros Hidx Hf Hc Hm Hlt. unfold nvhost_syncpt_wait_check. fold refresh.
  pose proof (refresh_loop_frame (seqZ 0 (NV_HOST1X_SYNCPT_NB_PTS cfg)) sp)
    as (_ & _ & F3). cbn zeta in F3.
  pose proof (refresh_loop_ok (seqZ 0 (NV_HOST1X_SYNCPT_NB_PTS cfg)) sp) as Hok.
  cbn zeta. unfold bind.
  destruct (for_each (seqZ 0 (NV_HOST1X_SYNCPT_NB_PTS cfg)) refresh sp)
    as [[[[]| | |] sp1] t1]; cbn [outcome final events fst snd] in *.
  - exfalso. specialize (Hok sp1 t1 eq_refl idx mx).
    assert (idx ∈ seqZ 0 (NV_HOST1X_SYNCPT_NB_PTS cfg)) as Hin
      by (apply elem_of_seqZ; lia).
    specialize (Hok Hin Hf Hc Hm). lia.
  - split; [discriminate|]. destruct F3 as (reads & Hr & ->).
    exists reads. split; [exact Hr|left; split; reflexivity].
  - split; [discriminate|].
    exists t1. split; [exact F3|right; split; reflexivity].
  - destruct F3.
Qed.

End CheckFrame.

(** Counter 3 at 2 of 9 is flagged and its register shows 12: the check
    halts after the read of that register and the dump, and the stale
    descriptor is not patched. *)
Lemma wait_check_beyond_max_witness :
  let r := nvhost_syncpt_wait_check sample_cfg (sample_env 12 0 0 (-1)) (BIT 3)
             (Some [ {| mem := 100; offset := 0; syncpt_id := 3; thresh := 5 |} ])
             (sample_sp 2 9) in
  ((forall v, outcome r <> Ok v) /\
   exists reads,
     forallb is_readl reads = true /\
     (outcome r = Bug /\ events r = reads ++ [sync_reg_dump] \/
      outcome r = Fault /\ events r = reads)) /\
  outcome r = Bug /\ events r = [syncpt_readl 3; sync_reg_dump].
Proof.
  split; [|split; vm_compute; reflexivity].
  apply (wait_check_beyond_max sample_cfg (sample_env 12 0 0 (-1)) (BIT 3) _
           (sample_sp 2 9) 3 9); run.
Defined.

Section CheckEdges.
Context (cfg : nvhost_config) (env : collaborators).
Variables (mask : Z) (sp : nvhost_syncpt).
Hypothesis HN : 0 <= NV_HOST1X_SYNCPT_NB_PTS cfg.
Hypothesis Hlen_min : length (min_val sp) = Z.to_nat (NV_HOST1X_SYNCPT_NB_PTS cfg).
Hypothesis Hlen_max : length (max_val sp) = Z.to_nat (NV_HOST1X_SYNCPT_NB_PTS cfg).
Hypothesis Hreserved : forall idx mx,
  flagged mask idx = true ->
  client_managed cfg idx = false ->
  max_val sp !! Z.to_nat idx = Some mx ->
  0 <= s32 (u32 mx - u32 (readl_syncpt env idx)).

Let sp1 : nvhost_syncpt := refresh_flagged env mask sp.
Let refreshes : list event :=
  syncpt_readl <$> List.filter (flagged mask) (seqZ 0 (NV_HOST1X_SYNCPT_NB_PTS cfg)).

Lemma wait_check_after_refresh waitp :
  nvhost_syncpt_wait_check cfg env mask waitp sp =
    match waitp with
    | None => (Bug, sp1, refreshes)
    | Some descs =>
        (outcome (wait_check_loop cfg env descs sp1),
         final (wait_check_loop cfg env descs sp1),
         refreshes ++ events (wait_check_loop cfg env descs sp1))
    end.
Proof using HN Hlen_min Hlen_max Hreserved.
  unfold nvhost_syncpt_wait_check.
  rewrite (bind_ok _ _ _ _ _ _ (refresh_all cfg env mask sp Hlen_min Hlen_max
                                  Hreserved HN)).
  fold sp1. fold refreshes. destruct waitp; [reflexivity|].
  cbn [bug outcome final events fst snd]. rewrite app_nil_r. reflexivity.
Qed.

(** X22: a null descriptor list is met with [BUG_ON] only after the
    refresh: the registers of the flagged counters have been read and their
    cached minima updated when the check halts. *)
Theorem wait_check_null_list :
  nvhost_syncpt_wait_check cfg env mask None sp = (Bug, sp1, refreshes).
Proof using HN Hlen_min Hlen_max Hreserved.
  apply (wait_check_after_refresh None).
Qed.

(** X23: a descriptor whose counter id is greater than the number of
    counters halts the check when the walk reaches it: the stale
    descriptors in front of it have been patched and stay patched, and
    nothing behind it is looked at. *)
Theorem wait_check_bad_descriptor l1 w l2 :
  Forall (fun w' => 0 <= syncpt_id w' < NV_HOST1X_SYNCPT_NB_PTS cfg) l1 ->
  Forall (fun w' => stale env mask sp w' = true -> patch_status cfg env w' = 0) l1 ->
  NV_HOST1X_SYNCPT_NB_PTS cfg < syncpt_id w ->
  nvhost_syncpt_wait_check cfg env mask (Some (l1 ++ w :: l2)) sp =
    (Bug, sp1, refreshes ++ (patch_event cfg <$> List.filter (stale env mask sp) l1)).
Proof using HN Hlen_min Hlen_max Hreserved.
  intros Hr Hp Hw. rewrite wait_check_after_refresh.
  assert (wait_check_loop cfg env (l1 ++ w :: l2) sp1
          = (Bug, sp1, patch_event cfg <$> List.filter (stale env mask sp) l1)) as ->;
    [|reflexivity].
  clear Hreserved Hlen_max refreshes.
  induction l1 as [|w1 l1 IH].
  - cbn [app]. apply wait_check_loop_rejects_above, Hw.
  - rewrite <- app_comm_cons.
    apply Forall_cons in Hr as [Hw1 Hr]. apply Forall_cons in Hp as [Hpw Hp].
    subst sp1.
    rewrite (wait_check_loop_cons cfg env mask sp Hlen_min w1 _ Hw1), (IH Hr Hp).
    cbn [List.filter]. destruct (stale env mask sp w1); [|reflexivity].
    rewrite (Hpw eq_refl). reflexivity.
Qed.

(** X24: the stale-wait check and the wait agree: after the refresh, a
    wait on the counter and threshold of a descriptor (the threshold
    passing the entry check) makes no call at all exactly when the
    descriptor is stale. *)
Theorem stale_iff_wait_is_free fuel timeout w mx :
  0 <= syncpt_id w < NV_HOST1X_SYNCPT_NB_PTS cfg ->
  max_val sp !! Z.to_nat (syncpt_id w) = Some mx ->
  (client_managed cfg (syncpt_id w) = false -> 0 <= s32 (u32 mx - thresh w)) ->
  (events (nvhost_syncpt_wait_timeout cfg env fuel (syncpt_id w) (thresh w) timeout sp1)
     = [] <->
   stale env mask sp w = true).
Proof using Hlen_min.
  clear Hreserved Hlen_max refreshes HN.
  intros Hid Hm Hg.
  pose proof (cached_refresh_flagged cfg env mask sp Hlen_min (syncpt_id w) Hid) as E1.
  fold sp1 in E1.
  assert (max_val sp1 !! Z.to_nat (syncpt_id w) = Some mx) as E2 by exact Hm.
  rewrite (wait_timeout_entry cfg env fuel _ _ timeout sp1 _ mx E1 E2).
  assert (client_managed cfg (syncpt_id w) || (0 <=? s32 (u32 mx - thresh w)) = true)
    as ->.
  { destruct (client_managed cfg (syncpt_id w)); [reflexivity|].
    cbn. apply Z.leb_le, Hg. reflexivity. }
  cbn [negb].
  assert ((0 <=? s32 (u32 (if flagged mask (syncpt_id w)
                           then u32 (readl_syncpt env (syncpt_id w))
                           else default 0 (min_val sp !! Z.to_nat (syncpt_id w)))
                      - thresh w))
          = stale env mask sp w) as ->.
  { unfold stale, cached_after, cached.
    rewrite wrapping_comparison_unfold, s32_nonneg_b.
    destruct (flagged mask (syncpt_id w)); [rewrite u32_idem|]; reflexivity. }
  destruct (stale env mask sp w).
  - split; reflexivity.
  - cbn [events snd]. split; discriminate.
Qed.

End CheckEdges.

Lemma wait_check_null_list_witness :
  nvhost_syncpt_wait_check sample_cfg (sample_env 7 0 0 (-1)) (BIT 3) None (sample_sp 2 9)
  = (Bug, set_min (sample_sp 2 9) 3 7, [syncpt_readl 3]).
Proof.
  assert (forall idx mx,
            max_val (sample_sp 2 9) !! Z.to_nat idx = Some mx ->
            0 <= s32 (u32 mx - u32 7)) as Hres.
  { intros idx mx H. apply lookup_replicate in H as [-> _]. run. }
  refine (wait_check_null_list sample_cfg (sample_env 7 0 0 (-1)) (BIT 3) (sample_sp 2 9)
            _ _ _ _).
  - run.
  - reflexivity.
  - reflexivity.
  - intros idx mx _ _ H. exact (Hres idx mx H).
Defined.

Lemma wait_check_bad_descriptor_witness :
  nvhost_syncpt_wait_check sample_cfg (sample_env 7 0 0 (-1)) (BIT 3)
    (Some [ {| mem := 100; offset := 0; syncpt_id := 3; thresh := 5 |};
            {| mem := 101; offset := 4; syncpt_id := 40; thresh := 0 |};
            {| mem := 102; offset := 8; syncpt_id := 4; thresh := 1 |} ])
    (sample_sp 2 9)
  = (Bug, set_min (sample_sp 2 9) 3 7, [syncpt_readl 3; patch_wait 100 0 0]).
Proof.
  assert (forall idx mx,
            max_val (sample_sp 2 9) !! Z.to_nat idx = Some mx ->
            0 <= s32 (u32 mx - u32 7)) as Hres.
  { intros idx mx H. apply lookup_replicate in H as [-> _]. run. }
  refine (wait_check_bad_descriptor sample_cfg (sample_env 7 0 0 (-1)) (BIT 3)
            (sample_sp 2 9) _ _ _ _
            [ {| mem := 100; offset := 0; syncpt_id := 3; thresh := 5 |} ]
            {| mem := 101; offset := 4; syncpt_id := 40; thresh := 0 |}
            [ {| mem := 102; offset := 8; syncpt_id := 4; thresh := 1 |} ] _ _ _).
  - run.
  - reflexivity.
  - reflexivity.
  - intros idx mx _ _ H. exact (Hres idx mx H).
  - repeat constructor; run.
  - repeat constructor; run.
  - run.
Defined.

Lemma stale_iff_wait_is_free_witness :
  events (nvhost_syncpt_wait_timeout sample_cfg (sample_env 7 0 0 (-1)) 0 3 5 0
            (refresh_flagged (sample_env 7 0 0 (-1)) (BIT 3) (sample_sp 2 9))) = [] <->
  stale (sample_env 7 0 0 (-1)) (BIT 3) (sample_sp 2 9)
    {| mem := 100; offset := 0; syncpt_id := 3; thresh := 5 |} = true.
Proof.
  apply (stale_iff_wait_is_free sample_cfg (sample_env 7 0 0 (-1)) (BIT 3)
           (sample_sp 2 9) eq_refl 0 0
           {| mem := 100; offset := 0; syncpt_id := 3; thresh := 5 |} 9); run.
Defined.

(** ** Reset and save *)

Lemma bindD_ok {A B} (m : D A) (k : A -> D B) d a d1 t1 r d2 t2 :
  m d = (Ok a, d1, t1) ->
  k a d1 = (r, d2, t2) ->
  bindD m k d = (r, d2, t1 ++ t2).
Proof. intros E1 E2. unfold bindD. rewrite E1, E2. reflexivity. Qed.

Lemma bindD_stop {A B} (m : D A) (k : A -> D B) d r d1 t1 :
  m d = (r, d1, t1) ->
  (forall a, r <> Ok a) ->
  exists r', bindD m k d = (r', d1, t1) /\ forall b, r' <> Ok b.
Proof.
  intros E Hr. unfold bindD. rewrite E. destruct r as [a| | |].
  - destruct (Hr a eq_refl).
  - exists Bug. split; [reflexivity|discriminate].
  - exists Fault. split; [reflexivity|discriminate].
  - exists Spin. split; [reflexivity|discriminate].
Qed.

Lemma bases_eta d : {| counters := counters d; base_val := base_val d |} = d.
Proof. destruct d. reflexivity. Qed.

Lemma lift_run {A} (m : M A) d r sp t :
  m (counters d) = (r, sp, t) ->
  lift m d = (r, {| counters := sp; base_val := base_val d |}, counter_call <$> t).
Proof. intros E. unfold lift. rewrite E. reflexivity. Qed.


(** A loop whose body makes one call and leaves the structure alone. *)
Lemma for_eachD_calls {A} (l : list A) (body : A -> D unit) (call : A -> reg_event) d :
  (forall a, a ∈ l -> body a d = (Ok tt, d, [call a])) ->
  for_eachD l body d = (Ok tt, d, call <$> l).
Proof.
  induction l as [|a l IH]; intros H; [reflexivity|].
  cbn [for_eachD].
  assert (for_eachD l body d = (Ok tt, d, call <$> l)) as E.
  { apply IH. intros b Hb. apply H. right. exact Hb. }
  rewrite (bindD_ok _ _ _ _ _ _ _ _ _ (H a ltac:(left)) E). reflexivity.
Qed.

Section PowerProofs.
Context (cfg : nvhost_config) (env : collaborators).
Variables (nb : Z) (readl_base : Z -> Z) (d : nvhost_syncpt_bases).

Let N : Z := NV_HOST1X_SYNCPT_NB_PTS cfg.
Hypothesis Hlen_min : length (min_val (counters d)) = Z.to_nat N.
Hypothesis Hlen_base : length (base_val d) = Z.to_nat nb.

Let reset_calls : list reg_event :=
  ((fun i => syncpt_writel i (written_counter d i)) <$> seqZ 0 N) ++
  ((fun i => base_writel i (written_base d i)) <$> seqZ 0 nb).

Lemma reset_run :
  nvhost_syncpt_reset cfg nb d = (Ok tt, d, reset_calls).
Proof using Hlen_min Hlen_base.
  unfold nvhost_syncpt_reset. fold N.
  apply (bindD_ok _ _ d tt d); apply for_eachD_calls; intros i Hi;
    apply elem_of_seqZ in Hi.
  - unfold reset_syncpt, written_counter.
    destruct (lookup_lt_is_Some_2 (min_val (counters d)) (Z.to_nat i) ltac:(lia))
      as [v Ev].
    rewrite (bindD_ok _ _ d (u32 v) d [] (Ok tt) d [syncpt_writel i (u32 v)]).
    + rewrite Ev. reflexivity.
    + rewrite (lift_run _ d _ _ _ (atomic_read_min_eq _ _ _ Ev)), bases_eta.
      reflexivity.
    + reflexivity.
  - unfold reset_syncpt_wait_base, written_base.
    destruct (lookup_lt_is_Some_2 (base_val d) (Z.to_nat i) ltac:(lia)) as [v Ev].
    rewrite Ev. reflexivity.
Qed.

(** X25: [nvhost_syncpt_reset] writes the cached minimum of every counter
    to its register, in increasing order, and then every wait-base shadow
    to its register; it changes no shadow. *)
Theorem syncpt_reset_writes :
  nvhost_syncpt_reset cfg nb d = (Ok tt, d, reset_calls).
Proof using Hlen_min Hlen_base.
  exact reset_run.
Qed.

End PowerProofs.

Lemma syncpt_reset_writes_witness :
  nvhost_syncpt_reset small_cfg 2 (sample_bases 4 4 9)
  = (Ok tt, sample_bases 4 4 9,
     [syncpt_writel 0 4; syncpt_writel 1 4; syncpt_writel 2 4;
      base_writel 0 9; base_writel 1 9]).
Proof.
  apply (syncpt_reset_writes small_cfg 2 (sample_bases 4 4 9)); reflexivity.
Defined.


Section SaveProofs.
Context (cfg : nvhost_config) (env : collaborators).
Variables (nb : Z) (readl_base : Z -> Z) (d : nvhost_syncpt_bases).

Let N : Z := NV_HOST1X_SYNCPT_NB_PTS cfg.
Let mask : Z := NVSYNCPTS_CLIENT_MANAGED cfg.
Let sp : nvhost_syncpt := counters d.

Hypothesis HN : 0 <= N.
Hypothesis Hnb : 0 <= nb.
Hypothesis Hlen_min : length (min_val sp) = Z.to_nat N.
Hypothesis Hlen_max : length (max_val sp) = Z.to_nat N.
Hypothesis Hlen_base : length (base_val d) = Z.to_nat nb.

(** Every counter that is not client-managed has drained. *)
Hypothesis Hdrained : forall idx mn mx,
  client_managed cfg idx = false ->
  min_val sp !! Z.to_nat idx = Some mn ->
  max_val sp !! Z.to_nat idx = Some mx ->
  u32 mn = u32 mx.









End SaveProofs.

Section SaveHalts.
Context (cfg : nvhost_config) (env : collaborators).



End SaveHalts.




